(** * Availability engine of the calendar assistant (server.js)

    A shallow embedding of [normalizeRange], [withinWorkHours] and
    [computeAvailability] together with the properties of the slot scan.

    Conventions of the embedding.
    - A JavaScript [Date] is its time value: an integer number of
      milliseconds since the epoch, or the Invalid Date (time value NaN).
      [new Date(n)] clips values beyond 8.64e15 ms to the Invalid Date, and
      a relational comparison involving an Invalid Date is [false].
    - An ISO string produced by [toISOString] denotes exactly one time
      value; the embedding keeps the time value.  [toISOString] throws a
      [RangeError] on the Invalid Date.
    - Functions that live outside the repository (the engine's string
      parser behind [new Date(s)], date-fns' [parseISO], the time-zone
      database consulted by date-fns-tz and by the host) are fields of a
      [Platform] record.
    - The [while] loop is run with fuel; [None] means that the fuel ran
      out, and termination is proved separately. *)

From Stdlib Require Import ZArith List Bool String Ascii Lia Sorted.
Import ListNotations.
Local Open Scope Z_scope.

(** ** Time values *)

Module TimeValue.

Definition msPerMinute : Z := 60000.
Definition msPerHour : Z := 3600000.
Definition msPerDay : Z := 86400000.

(** Largest magnitude of a time value (ECMA-262, time values and TimeClip). *)
Definition MAX_TIME : Z := 8640000000000000.

Inductive JSDate : Type :=
| DateOf (t : Z)
| InvalidDate.

Definition in_range (t : Z) : Prop := - MAX_TIME <= t <= MAX_TIME.

Definition in_rangeb (t : Z) : bool := (- MAX_TIME <=? t) && (t <=? MAX_TIME).

(** [new Date(n)] for a number [n]: TimeClip. *)
Definition mkDate (t : Z) : JSDate :=
  if in_rangeb t then DateOf t else InvalidDate.

(** [a < b] on two Dates (both are converted to their time values). *)
Definition date_ltb (a b : JSDate) : bool :=
  match a, b with
  | DateOf x, DateOf y => x <? y
  | _, _ => false
  end.

(** [a > b] is [b < a] with the operands evaluated in the other order. *)
Definition date_gtb (a b : JSDate) : bool := date_ltb b a.

(** date-fns [isValid]. *)
Definition isValid (d : JSDate) : bool :=
  match d with DateOf _ => true | InvalidDate => false end.

(** date-fns [addMinutes(date, amount)]:
    [new Date(date.getTime() + amount * 60000)]. *)
Definition addMinutes (d : JSDate) (amount : Z) : JSDate :=
  match d with
  | DateOf t => mkDate (t + amount * msPerMinute)
  | InvalidDate => InvalidDate
  end.

(** Field extraction from a wall-clock value (ECMA-262 Day, HourFromTime,
    MinFromTime, WeekDay); [/] and [mod] on [Z] are floor division and
    the matching modulo, as in the standard. *)
Definition Day (w : Z) : Z := w / msPerDay.
Definition HourFromTime (w : Z) : Z := (w / msPerHour) mod 24.
Definition MinFromTime (w : Z) : Z := (w / msPerMinute) mod 60.
Definition WeekDay (w : Z) : Z := (Day w + 4) mod 7.

End TimeValue.
Import TimeValue.

(** ** Errors and results *)

Inductive JSError : Type :=
| RangeError_InvalidTimeValue
    (* thrown by toISOString (and by the zone conversion) on Invalid Date *)
| Error_StartEndRequired
    (* 'Query params "start" and "end" are required' *)
| Error_InvalidStartEnd
    (* 'Invalid start/end; use YYYY-MM-DD or ISO datetime' *)
| ProviderError (message : string)
    (* rejection of the calendar API call *).

Definition Result (A : Type) : Type := (JSError + A)%type.

Definition ok {A : Type} (a : A) : Result A := inr a.
Definition throw {A : Type} (e : JSError) : Result A := inl e.

Definition bind {A B : Type} (m : Result A) (k : A -> Result B) : Result B :=
  match m with
  | inl e => inl e
  | inr a => k a
  end.

Notation "'do' x <- m ; k" := (bind m (fun x => k))
  (at level 10, x name, m at level 100, k at level 200).

(** [d.toISOString()]. *)
Definition toISOString (d : JSDate) : Result Z :=
  match d with
  | DateOf t => ok t
  | InvalidDate => throw RangeError_InvalidTimeValue
  end.

(** ** Data *)

(** The process-wide [RULES] object; every field is the integer that
    [parseInt] read from the environment or from the default. *)
Record Rules : Type := {
  WORK_DAYS : list Z;
  WORK_START_HOUR : Z;
  WORK_END_HOUR : Z;
  SLOT_INTERVAL_MIN : Z;
  BUFFER_MIN : Z;
  MIN_NOTICE_MIN : Z
}.

(** One entry of the free/busy answer, after [new Date(b.start)] and
    [new Date(b.end)]. *)
Record BusyInterval : Type := {
  b_start : JSDate;
  b_end : JSDate
}.

(** What the code obtains from outside the repository. *)
Record Platform : Type := {
  (* time value of [new Date(s)] for a string [s]; [None] is NaN *)
  Date_parse : string -> option Z;
  (* time value of date-fns [parseISO(s)]; [None] is NaN *)
  parseISO_time : string -> option Z;
  (* host time zone: LocalTime(t) and UTC(w) of ECMA-262 *)
  sysWall : Z -> Z;
  sysInstant : Z -> Z;
  (* IANA zone [tz]: wall clock of an instant *)
  tzWall : string -> Z -> Z;
  (* IANA zone [tz]: instant of a wall clock; [None] for an unknown zone *)
  tzInstant : string -> Z -> option Z
}.

Definition ofTime (o : option Z) : JSDate :=
  match o with
  | Some t => mkDate t
  | None => InvalidDate
  end.

(** [Array.prototype.includes] on the work days. *)
Definition includes (l : list Z) (x : Z) : bool := existsb (Z.eqb x) l.

(** ** The regular expression of [isDateOnly] *)

Definition is_digit (a : ascii) : bool :=
  let n := nat_of_ascii a in (48 <=? n)%nat && (n <=? 57)%nat.

Definition is_dash (a : ascii) : bool := Ascii.eqb a "-"%char.

(** [/^\d{4}-\d{2}-\d{2}$/.test(s)] *)
Definition isDateOnly (s : string) : bool :=
  match list_ascii_of_string s with
  | [y1; y2; y3; y4; s1; m1; m2; s2; d1; d2] =>
      is_digit y1 && is_digit y2 && is_digit y3 && is_digit y4 &&
      is_dash s1 && is_digit m1 && is_digit m2 &&
      is_dash s2 && is_digit d1 && is_digit d2
  | _ => false
  end.

(** [!s] for a query-string value: absent and empty values are falsy. *)
Definition falsy (s : string) : bool :=
  match s with EmptyString => true | _ => false end.

Section Server.

Variable P : Platform.
Variable RULES : Rules.

(** [new Date(s)] *)
Definition newDate (s : string) : JSDate := ofTime (Date_parse P s).

(** date-fns [parseISO(s)].  The empty string has an empty date part,
    for which the function returns the Invalid Date before any parsing. *)
Definition parseISO (s : string) : JSDate :=
  if falsy s then InvalidDate else ofTime (parseISO_time P s).

(** date-fns [setHours(date, hours)]: [date.setHours(hours)] in the host
    time zone, keeping minutes, seconds and milliseconds. *)
Definition setHours (d : JSDate) (hours : Z) : JSDate :=
  match d with
  | DateOf t =>
      let w := sysWall P t in
      mkDate (sysInstant P
                (Day w * msPerDay + hours * msPerHour + w mod msPerHour))
  | InvalidDate => InvalidDate
  end.

(** date-fns [setMinutes(date, minutes)]. *)
Definition setMinutes (d : JSDate) (minutes : Z) : JSDate :=
  match d with
  | DateOf t =>
      let w := sysWall P t in
      mkDate (sysInstant P
                (Day w * msPerDay + HourFromTime w * msPerHour
                 + minutes * msPerMinute + w mod msPerMinute))
  | InvalidDate => InvalidDate
  end.

(** date-fns [setSeconds(date, seconds)]. *)
Definition setSeconds (d : JSDate) (seconds : Z) : JSDate :=
  match d with
  | DateOf t =>
      let w := sysWall P t in
      mkDate (sysInstant P
                (Day w * msPerDay + HourFromTime w * msPerHour
                 + MinFromTime w * msPerMinute + seconds * 1000
                 + w mod 1000))
  | InvalidDate => InvalidDate
  end.

(** date-fns-tz [zonedTimeToUtc(date, tz)]: the host-local fields of
    [date] are read as a wall clock in [tz].  On an Invalid Date, or for
    an unknown zone, the library yields an Invalid Date or throws the
    RangeError that the [toISOString] following every call in this file
    throws as well; both are the Invalid Date here. *)
Definition zonedTimeToUtc (d : JSDate) (tz : string) : JSDate :=
  match d with
  | DateOf t => ofTime (tzInstant P tz (sysWall P t))
  | InvalidDate => InvalidDate
  end.

(** [utcToZonedTime(date, tz).getDay()] and [.getHours()]: the fields of
    the wall clock of [date] in [tz]. *)
Definition zonedDay (t : Z) (tz : string) : Z := WeekDay (tzWall P tz t).
Definition zonedHours (t : Z) (tz : string) : Z := HourFromTime (tzWall P tz t).

(** *** normalizeRange *)

Definition normalizeRange (start end_ tz : string) : Result (Z * Z) :=
  if falsy start || falsy end_ then throw Error_StartEndRequired
  else if isDateOnly start && isDateOnly end_ then
    let startUtc := zonedTimeToUtc (newDate (start ++ "T00:00:00")) tz in
    let endUtc := zonedTimeToUtc (newDate (end_ ++ "T23:59:59.999")) tz in
    do timeMin <- toISOString startUtc ;
    do timeMax <- toISOString endUtc ;
    ok (timeMin, timeMax)
  else
    let s := parseISO start in
    let e := parseISO end_ in
    if negb (isValid s) || negb (isValid e) then throw Error_InvalidStartEnd
    else
      do timeMin <- toISOString s ;
      do timeMax <- toISOString e ;
      ok (timeMin, timeMax).

(** *** withinWorkHours *)

Definition withinWorkHours (t : Z) (tz : string) : bool :=
  if negb (includes (WORK_DAYS RULES) (zonedDay t tz)) then false
  else
    let h := zonedHours t tz in
    (WORK_START_HOUR RULES <=? h) && (h <? WORK_END_HOUR RULES).

(** *** computeAvailability *)

(** Lines 431-436: the work window of [date], as the pair of ISO strings
    [timeMin], [timeMax]. *)
Definition workStartLocal (date : string) : JSDate :=
  let dayStartLocal := setSeconds (setMinutes (setHours (newDate date) 0) 0) 0 in
  setHours dayStartLocal (WORK_START_HOUR RULES).

Definition workEndLocal (date : string) : JSDate :=
  let dayStartLocal := setSeconds (setMinutes (setHours (newDate date) 0) 0) 0 in
  setHours dayStartLocal (WORK_END_HOUR RULES).

Definition workWindow (date tz : string) : Result (Z * Z) :=
  do timeMin <- toISOString (zonedTimeToUtc (workStartLocal date) tz) ;
  do timeMax <- toISOString (zonedTimeToUtc (workEndLocal date) tz) ;
  ok (timeMin, timeMax).

(** Lines 457-465: the buffer test of one cursor position. *)
Definition overlaps (busy : list BusyInterval) (cursorUtc slotEnd : JSDate)
  : bool :=
  let slotStartBuf := addMinutes cursorUtc (- BUFFER_MIN RULES) in
  let slotEndBuf := addMinutes slotEnd (BUFFER_MIN RULES) in
  existsb (fun b =>
             let bStart := b_start b in
             let bEnd := b_end b in
             date_ltb slotStartBuf bEnd && date_gtb slotEndBuf bStart)
          busy.

(** Lines 446-472: the loop.  [starts] is the array built so far.  The
    loop guard is false on an Invalid Date, so the cursor that is pushed
    is a valid one and its [toISOString] does not throw. *)
Fixpoint scan (fuel : nat) (busy : list BusyInterval) (durationMin : Z)
  (tz : string) (nowUtc endUtc : JSDate) (cursorUtc : JSDate)
  (starts : list Z) : option (list Z) :=
  match fuel with
  | O => None
  | S fuel' =>
      if date_ltb cursorUtc endUtc then
        let slotEnd := addMinutes cursorUtc durationMin in
        if date_gtb slotEnd endUtc then Some starts
        else if date_gtb (addMinutes nowUtc (MIN_NOTICE_MIN RULES)) cursorUtc
        then
          scan fuel' busy durationMin tz nowUtc endUtc
               (addMinutes cursorUtc (SLOT_INTERVAL_MIN RULES)) starts
        else
          let starts' :=
            match cursorUtc with
            | DateOf c =>
                if negb (overlaps busy cursorUtc slotEnd)
                   && withinWorkHours c tz
                then starts ++ [c] else starts
            | InvalidDate => starts
            end in
          scan fuel' busy durationMin tz nowUtc endUtc
               (addMinutes cursorUtc (SLOT_INTERVAL_MIN RULES)) starts'
      else Some starts
  end.

(** The whole function.  [freeBusy] is the provider round trip and
    [now] the time value read by [new Date()] after it; [durationMin] is
    the integer that the route read with [parseInt]. *)
Definition computeAvailability (fuel : nat)
  (freeBusy : Z -> Z -> Result (list BusyInterval)) (now : Z)
  (date : string) (durationMin : Z) (tz : string)
  : option (Result (list Z)) :=
  match workWindow date tz with
  | inl e => Some (throw e)
  | inr (timeMin, timeMax) =>
      match freeBusy timeMin timeMax with
      | inl e => Some (throw e)
      | inr busy =>
          let cursorUtc := zonedTimeToUtc (workStartLocal date) tz in
          let endUtc := zonedTimeToUtc (workEndLocal date) tz in
          let nowUtc := mkDate now in
          match scan fuel busy durationMin tz nowUtc endUtc cursorUtc [] with
          | Some starts => Some (ok starts)
          | None => None
          end
      end
  end.

End Server.

(** ** A reference platform with fixed-offset zones

    Used to run the functions on concrete requests.  The host zone is
    [hostOffsetMin] minutes east of UTC; the IANA zones known to it are
    ["UTC"] and the fixed-offset zones ["Etc/GMT+5"] (five hours west)
    and ["Etc/GMT-9"] (nine hours east).  The string parsers read the
    ISO date and date-time forms [YYYY-MM-DD] and
    [YYYY-MM-DDTHH:MM(:SS(.sss))] with an optional [Z] or [+HH:MM] /
    [-HH:MM] suffix, and reject every other text; the engine and
    date-fns read further forms, which the examples do not use. *)

Module Reference.

Definition digit_val (a : ascii) : option Z :=
  if is_digit a then Some (Z.of_nat (nat_of_ascii a) - 48) else None.

Fixpoint number (l : list ascii) (acc : Z) : option Z :=
  match l with
  | [] => Some acc
  | a :: l' =>
      match digit_val a with
      | Some d => number l' (10 * acc + d)
      | None => None
      end
  end.

Definition is_leap (y : Z) : bool :=
  ((y mod 4 =? 0) && negb (y mod 100 =? 0)) || (y mod 400 =? 0).

Definition days_in_month (y m : Z) : Z :=
  if m =? 2 then (if is_leap y then 29 else 28)
  else if (m =? 4) || (m =? 6) || (m =? 9) || (m =? 11) then 30
  else 31.

(** Day number of a civil date, counted from 1970-01-01. *)
Definition days_from_civil (y m d : Z) : Z :=
  let y' := if m <=? 2 then y - 1 else y in
  let era := y' / 400 in
  let yoe := y' - era * 400 in
  let mp := (m + 9) mod 12 in
  let doy := (153 * mp + 2) / 5 + d - 1 in
  let doe := yoe * 365 + yoe / 4 - yoe / 100 + doy in
  era * 146097 + doe - 719468.

(** [YYYY-MM-DD] as a day number.  date-fns checks the day against the
    length of the month ([strict]); the engine's parser behind
    [new Date] only asks for a day from 1 to 31 and lets a day past the
    end of the month roll over into the next one. *)
Definition civil (strict : bool) (l : list ascii) : option Z :=
  match l with
  | [y1; y2; y3; y4; s1; m1; m2; s2; d1; d2] =>
      if is_dash s1 && is_dash s2 then
        match number [y1; y2; y3; y4] 0, number [m1; m2] 0, number [d1; d2] 0
        with
        | Some y, Some m, Some d =>
            if (1 <=? m) && (m <=? 12) && (1 <=? d)
               && (d <=? (if strict then days_in_month y m else 31))
            then Some (days_from_civil y m d) else None
        | _, _, _ => None
        end
      else None
  | _ => None
  end.

(** [HH:MM], [HH:MM:SS] or [HH:MM:SS.sss] as milliseconds of the day. *)
Definition clock (l : list ascii) : option Z :=
  let hms h1 h2 c1 m1 m2 sec frac :=
    if Ascii.eqb c1 ":"%char then
      match number [h1; h2] 0, number [m1; m2] 0, sec with
      | Some h, Some m, Some s =>
          if (h <? 24) && (m <? 60) && (s <? 60)
          then Some (h * msPerHour + m * msPerMinute + s * 1000 + frac)
          else None
      | _, _, _ => None
      end
    else None in
  match l with
  | [h1; h2; c1; m1; m2] => hms h1 h2 c1 m1 m2 (Some 0) 0
  | [h1; h2; c1; m1; m2; c2; s1; s2] =>
      if Ascii.eqb c2 ":"%char
      then hms h1 h2 c1 m1 m2 (number [s1; s2] 0) 0 else None
  | [h1; h2; c1; m1; m2; c2; s1; s2; dot; f1; f2; f3] =>
      if Ascii.eqb c2 ":"%char && Ascii.eqb dot "."%char then
        match number [f1; f2; f3] 0 with
        | Some f => hms h1 h2 c1 m1 m2 (number [s1; s2] 0) f
        | None => None
        end
      else None
  | _ => None
  end.

(** The zone suffix of a date-time, read from its end: [Z], [+HH:MM] or
    [-HH:MM], as the remaining text and the minutes east of UTC; no
    suffix means local time. *)
Definition zoneSuffix (time : list ascii) : list ascii * option Z :=
  match rev time with
  | z :: r =>
      if Ascii.eqb z "Z"%char then (rev r, Some 0)
      else
        match rev time with
        | m2 :: m1 :: c :: h2 :: h1 :: sign :: r' =>
            if Ascii.eqb c ":"%char
               && (Ascii.eqb sign "+"%char || Ascii.eqb sign "-"%char)
            then
              match number [h1; h2] 0, number [m1; m2] 0 with
              | Some h, Some m =>
                  if (h <? 24) && (m <? 60) then
                    (rev r',
                     Some (if Ascii.eqb sign "-"%char
                           then - (h * 60 + m) else h * 60 + m))
                  else (time, None)
              | _, _ => (time, None)
              end
            else (time, None)
        | _ => (time, None)
        end
  | [] => (time, None)
  end.

Definition zoneOffsetMin (tz : string) : option Z :=
  if String.eqb tz "UTC" then Some 0
  else if String.eqb tz "Etc/GMT+5" then Some (-300)
  else if String.eqb tz "Etc/GMT-9" then Some 540
  else None.

Section Host.

Variable hostOffsetMin : Z.

Definition hostWall (t : Z) : Z := t + hostOffsetMin * msPerMinute.
Definition hostInstant (w : Z) : Z := w - hostOffsetMin * msPerMinute.

(** ISO date and date-time forms.  [dateFns] tells date-fns'
    [parseISO], for which the date-only form is local time and the day
    must exist, from [new Date], for which the date-only form is UTC and
    the day rolls over.  A date-time without a zone suffix is local
    time. *)
Definition parseWith (dateFns : bool) (s : string) : option Z :=
  let l := list_ascii_of_string s in
  let date := firstn 10 l in
  let rest := skipn 10 l in
  match civil dateFns date with
  | None => None
  | Some day =>
      match rest with
      | [] =>
          Some (if dateFns then hostInstant (day * msPerDay)
                else day * msPerDay)
      | t :: time =>
          if Ascii.eqb t "T"%char then
            let (text, zone) := zoneSuffix time in
            match clock text, zone with
            | Some ms, Some east =>
                Some (day * msPerDay + ms - east * msPerMinute)
            | Some ms, None => Some (hostInstant (day * msPerDay + ms))
            | None, _ => None
            end
          else None
      end
  end.

Definition platform : Platform := {|
  Date_parse := parseWith false;
  parseISO_time := parseWith true;
  sysWall := hostWall;
  sysInstant := hostInstant;
  tzWall := fun tz t =>
    match zoneOffsetMin tz with
    | Some o => t + o * msPerMinute
    | None => t
    end;
  tzInstant := fun tz w =>
    match zoneOffsetMin tz with
    | Some o => Some (w - o * msPerMinute)
    | None => None
    end
|}.

End Host.

(** A host whose zone is UTC, and one five hours west of UTC. *)
Definition hostUTC : Platform := platform 0.
Definition hostWest : Platform := platform (-300).

(** The default rules: Monday to Friday, 9 to 17, 30-minute grid,
    10-minute buffer, 120 minutes of notice. *)
Definition defaultRules : Rules := {|
  WORK_DAYS := [1; 2; 3; 4; 5];
  WORK_START_HOUR := 9;
  WORK_END_HOUR := 17;
  SLOT_INTERVAL_MIN := 30;
  BUFFER_MIN := 10;
  MIN_NOTICE_MIN := 120
|}.

(** A provider that reports no busy time, and one that reports a fixed
    list whatever the window. *)
Definition noBusy : Z -> Z -> Result (list BusyInterval) :=
  fun _ _ => ok [].
Definition fixedBusy (l : list BusyInterval)
  : Z -> Z -> Result (list BusyInterval) :=
  fun _ _ => ok l.

End Reference.

(** ** Example requests *)

Module Example.

Import Reference.

(** Monday 2025-08-11 in the zone five hours west of UTC: the work
    window is 14:00Z to 22:00Z. *)
Definition monday : string := "2025-08-11".
Definition zone : string := "Etc/GMT+5".
Definition windowStart : Z := 1754920800000.
Definition windowEnd : Z := 1754949600000.

(** 07:00 local time on that day. *)
Definition sevenAM : Z := 1754913600000.

(** One meeting from 10:00 to 10:30 local time, one that ends at 10:50
    and one that starts at 12:10: the last two touch the padded bounds
    of the 11:00 and 11:30 candidates. *)
Definition meeting : BusyInterval :=
  {| b_start := DateOf 1754924400000; b_end := DateOf 1754926200000 |}.
Definition before11 : BusyInterval :=
  {| b_start := DateOf 1754926200000; b_end := DateOf 1754927400000 |}.
Definition after1130 : BusyInterval :=
  {| b_start := DateOf 1754932200000; b_end := DateOf 1754935200000 |}.

(** The answer is unsorted and its entries overlap one another. *)
Definition busyList : list BusyInterval :=
  [after1130; meeting; before11; meeting].

Definition slots : list Z :=
  [1754920800000; 1754928000000; 1754929800000; 1754937000000;
   1754938800000; 1754940600000; 1754942400000; 1754944200000;
   1754946000000; 1754947800000].

(** 07:30 local time on that day: the notice boundary is 09:30. *)
Definition sevenThirty : Z := 1754915400000.

Definition slotsFrom930 : list Z :=
  [1754922600000; 1754924400000; 1754926200000; 1754928000000;
   1754929800000; 1754931600000; 1754933400000; 1754935200000;
   1754937000000; 1754938800000; 1754940600000; 1754942400000;
   1754944200000; 1754946000000; 1754947800000].

(** Every grid position of the window, 09:00 to 16:30. *)
Definition allSlots : list Z := 1754920800000 :: slotsFrom930.

(** A provider that answers only for the window of [monday]. *)
Definition windowBusy : Z -> Z -> Result (list BusyInterval) :=
  fun timeMin timeMax =>
    if (timeMin =? windowStart) && (timeMax =? windowEnd) then ok busyList
    else throw (ProviderError "unexpected window").

(** Saturday 2025-08-09, the Friday slots before it, and noon UTC of the
    Thursday before that. *)
Definition saturday : string := "2025-08-09".
Definition thursdayNoon : Z := 1754568000000.
Definition fridaySlots : list Z :=
  [1754661600000; 1754663400000; 1754665200000; 1754667000000;
   1754668800000; 1754670600000; 1754672400000; 1754674200000;
   1754676000000; 1754677800000; 1754679600000; 1754681400000;
   1754683200000; 1754685000000; 1754686800000; 1754688600000].

(** A duration of two hundred thousand million minutes: added to any
    instant of the window it leaves the range of a Date. *)
Definition hugeDuration : Z := 200000000000.

(** The default rules with a notice of that many minutes. *)
Definition hugeNoticeRules : Rules := {|
  WORK_DAYS := [1; 2; 3; 4; 5];
  WORK_START_HOUR := 9;
  WORK_END_HOUR := 17;
  SLOT_INTERVAL_MIN := 30;
  BUFFER_MIN := 10;
  MIN_NOTICE_MIN := 200000000000
|}.

(** A date string for the thirty-first of February, an instant in the
    middle of that February, and the grid positions of Monday
    2025-03-03. *)
Definition februaryThirtyFirst : string := "2025-02-31".
Definition midFebruary : Z := 1740000000000.
Definition marchThirdSlots : list Z :=
  [1741010400000; 1741012200000; 1741014000000; 1741015800000;
   1741017600000; 1741019400000; 1741021200000; 1741023000000;
   1741024800000; 1741026600000; 1741028400000; 1741030200000;
   1741032000000; 1741033800000; 1741035600000; 1741037400000].

(** The default rules with a zero grid step. *)
Definition zeroStepRules : Rules := {|
  WORK_DAYS := [1; 2; 3; 4; 5];
  WORK_START_HOUR := 9;
  WORK_END_HOUR := 17;
  SLOT_INTERVAL_MIN := 0;
  BUFFER_MIN := 10;
  MIN_NOTICE_MIN := 120
|}.

(** The busy list of [busyList] without its repetition, in another
    order. *)
Definition busyListSorted : list BusyInterval :=
  [meeting; before11; after1130].

(** 04:00 UTC on Friday 2025-08-08, which is 23:00 on Thursday in the
    zone five hours west. *)
Definition fridayEarly : Z := 1754625600000.

End Example.

(** ** Per-position predicates of the scan *)

Section Checks.

Variable P : Platform.
Variable RULES : Rules.

(** Grid step in milliseconds. *)
Definition stepMs : Z := SLOT_INTERVAL_MIN RULES * msPerMinute.

(** The loop guard and the "must finish within work hours" test. *)
Definition in_window (durationMin : Z) (endUtc : JSDate) (c : Z) : bool :=
  date_ltb (DateOf c) endUtc
  && negb (date_gtb (addMinutes (DateOf c) durationMin) endUtc).

(** The notice test: [true] when the position is not skipped. *)
Definition notice_ok (nowUtc : JSDate) (c : Z) : bool :=
  negb (date_gtb (addMinutes nowUtc (MIN_NOTICE_MIN RULES)) (DateOf c)).

(** All three tests of one position. *)
Definition accepts (busy : list BusyInterval) (durationMin : Z)
  (tz : string) (nowUtc : JSDate) (c : Z) : bool :=
  notice_ok nowUtc c
  && negb (overlaps RULES busy (DateOf c) (addMinutes (DateOf c) durationMin))
  && withinWorkHours P RULES c tz.

(** What one iteration appends to [starts]. *)
Definition emit (busy : list BusyInterval) (durationMin : Z)
  (tz : string) (nowUtc : JSDate) (c : Z) : list Z :=
  if accepts busy durationMin tz nowUtc c then [c] else [].

(** What holds of every instant appended while scanning from [c]: it
    lies on the grid from [c] and passed every test. *)
Definition emitted_from (busy : list BusyInterval) (durationMin : Z)
  (tz : string) (nowUtc endUtc : JSDate) (c x : Z) : Prop :=
  exists k : nat,
    x = c + Z.of_nat k * stepMs
    /\ in_window durationMin endUtc x = true
    /\ accepts busy durationMin tz nowUtc x = true.

(** A produced Date is either invalid or within the clip range. *)
Definition clipped (d : JSDate) : Prop :=
  match d with
  | DateOf t => in_range t
  | InvalidDate => True
  end.

(** The slot end and the two padded bounds of a candidate at [c] are
    time values that a Date can hold, so that [addMinutes] returns them. *)
Definition padding_representable (durationMin c : Z) : Prop :=
  in_range (c - BUFFER_MIN RULES * msPerMinute)
  /\ in_range (c + durationMin * msPerMinute)
  /\ in_range (c + durationMin * msPerMinute + BUFFER_MIN RULES * msPerMinute).

(** Two half-open intervals [a, b) and [c, d) share an instant. *)
Definition intersects (a b c d : Z) : Prop := Z.max a c < Z.min b d.

End Checks.

(** ** The authentication middlewares

    Node hands header values to the handlers as strings of code units
    below 256, which is what a [string] holds here; the pattern and
    [trim] are applied to header values only.  Query values and secrets
    are only tested for emptiness and equality.  [None] is an absent
    header or query parameter and an unset environment variable. *)

Module Auth.

Inductive Outcome : Type :=
| Unauthorized   (* res.status(401).json(...) *)
| Next           (* next() *).

(** [a || b] for an optional string [a]. *)
Definition orElse (a : option string) (b : string) : string :=
  match a with
  | Some s => if falsy s then b else s
  | None => b
  end.

(** [\s], and the characters removed by [trim], among code units below
    256: TAB, LF, VT, FF, CR, space and no-break space. *)
Definition is_space (a : ascii) : bool :=
  let n := nat_of_ascii a in
  ((9 <=? n)%nat && (n <=? 13)%nat) || (n =? 32)%nat || (n =? 160)%nat.

(** One letter of the pattern under the [i] flag; [lower] is the pattern
    letter in lower case. *)
Definition letter_ci (a lower : ascii) : bool :=
  Ascii.eqb a lower
  || (nat_of_ascii a + 32 =? nat_of_ascii lower)%nat.

Fixpoint drop_spaces (l : list ascii) : list ascii :=
  match l with
  | a :: l' => if is_space a then drop_spaces l' else l
  | [] => []
  end.

(** [s.replace(/^Bearer\s+/i, '')] *)
Definition strip_bearer (s : string) : string :=
  match list_ascii_of_string s with
  | b :: e :: a :: r :: e' :: r' :: sp :: rest =>
      if letter_ci b "b" && letter_ci e "e" && letter_ci a "a"
         && letter_ci r "r" && letter_ci e' "e" && letter_ci r' "r"
         && is_space sp
      then string_of_list_ascii (drop_spaces rest)
      else s
  | _ => s
  end.

(** [s.trim()] *)
Definition trim (s : string) : string :=
  string_of_list_ascii
    (rev (drop_spaces (rev (drop_spaces (list_ascii_of_string s))))).

(** [key !== process.env.X] is false only for a set variable equal to
    the key. *)
Definition same (key : string) (secret : option string) : bool :=
  match secret with
  | Some k => String.eqb key k
  | None => false
  end.

(** [requireApiKey]: [xApiKey] and [authorization] are
    [req.get('X-API-Key')] and [req.get('Authorization')]. *)
Definition requireApiKey (API_KEY : option string)
  (xApiKey authorization : option string) : Outcome :=
  let keyHeader := xApiKey in
  let bearer := strip_bearer (orElse authorization EmptyString) in
  let key := orElse keyHeader bearer in
  if falsy key || negb (same key API_KEY) then Unauthorized else Next.

(** [requireActionToken]: [queryToken] is [req.query.token] and
    [header] is [req.get('X-Action-Token')]. *)
Definition requireActionToken (ACTION_TOKEN : option string)
  (queryToken header : option string) : Outcome :=
  let token := orElse queryToken (trim (orElse header EmptyString)) in
  if falsy token || negb (same token ACTION_TOKEN) then Unauthorized else Next.

(** The token test of [/summary/next-week]. *)
Definition summaryToken (SUMMARY_TOKEN : option string)
  (queryToken : option string) : Outcome :=
  let token := orElse queryToken EmptyString in
  if falsy token || negb (same token SUMMARY_TOKEN) then Unauthorized else Next.

End Auth.

(** ** Calendar windows around the current instant *)

Section Windows.

Variable P : Platform.

(** [date.setDate(date.getDate() + days)]: the host wall clock moves by
    whole days and keeps its time of day. *)
Definition shiftDate (d : JSDate) (days : Z) : JSDate :=
  match d with
  | DateOf t => mkDate (sysInstant P (sysWall P t + days * msPerDay))
  | InvalidDate => InvalidDate
  end.

(** date-fns [addDays(date, amount)] for a non-zero integer amount. *)
Definition addDays (d : JSDate) (amount : Z) : JSDate := shiftDate d amount.

(** date-fns [startOfDay]: [date.setHours(0, 0, 0, 0)]. *)
Definition startOfDay (d : JSDate) : JSDate :=
  match d with
  | DateOf t => mkDate (sysInstant P (Day (sysWall P t) * msPerDay))
  | InvalidDate => InvalidDate
  end.

(** date-fns [endOfDay]: [date.setHours(23, 59, 59, 999)]. *)
Definition endOfDay (d : JSDate) : JSDate :=
  match d with
  | DateOf t =>
      mkDate (sysInstant P (Day (sysWall P t) * msPerDay
                            + 23 * msPerHour + 59 * msPerMinute
                            + 59 * 1000 + 999))
  | InvalidDate => InvalidDate
  end.

(** date-fns [startOfWeek(date, { weekStartsOn })]. *)
Definition startOfWeek (d : JSDate) (weekStartsOn : Z) : JSDate :=
  match d with
  | DateOf t =>
      let day := WeekDay (sysWall P t) in
      let diff := (if day <? weekStartsOn then 7 else 0) + day - weekStartsOn in
      startOfDay (shiftDate (DateOf t) (- diff))
  | InvalidDate => InvalidDate
  end.

(** [nextWeekWindow], with [now] the time value of [new Date()]. *)
Definition nextWeekWindow (now : Z) : Result (Z * Z) :=
  let thisWeekMon := startOfWeek (mkDate now) 1 in
  let nextWeekMon := addDays thisWeekMon 7 in
  let nextWeekSunEnd := addDays nextWeekMon 7 in
  do timeMin <- toISOString nextWeekMon ;
  do timeMax <- toISOString nextWeekSunEnd ;
  ok (timeMin, timeMax).

(** date-fns-tz [utcToZonedTime(date, tz)]: a Date whose host-local
    fields show the wall clock of [date] in [tz].  For a zone that the
    library does not know the result is the Invalid Date; here that case
    surfaces at the [zonedTimeToUtc] that follows, with the same error. *)
Definition utcToZonedTime (d : JSDate) (tz : string) : JSDate :=
  match d with
  | DateOf t => mkDate (sysInstant P (tzWall P tz t))
  | InvalidDate => InvalidDate
  end.

(** [todayRange] of lines 391-398. *)
Definition todayRange (now : Z) (tz : string) : Result (Z * Z) :=
  let nowLocal := utcToZonedTime (mkDate now) tz in
  let startLocal := startOfDay nowLocal in
  let endLocal := endOfDay nowLocal in
  let startUtc := zonedTimeToUtc P startLocal tz in
  let endUtc := zonedTimeToUtc P endLocal tz in
  do timeMin <- toISOString startUtc ;
  do timeMax <- toISOString endUtc ;
  ok (timeMin, timeMax).

(** The earlier [todayRange] (lines 89-94), which takes the start and
    the end of the host's day. *)
Definition todayRange_hostDay (now : Z) (tz : string) : Result (Z * Z) :=
  let startUtc := zonedTimeToUtc P (startOfDay (mkDate now)) tz in
  let endUtc := zonedTimeToUtc P (endOfDay (mkDate now)) tz in
  do timeMin <- toISOString startUtc ;
  do timeMax <- toISOString endUtc ;
  ok (timeMin, timeMax).

End Windows.

(** ** Facts about time values *)

Lemma in_rangeb_spec (t : Z) : in_rangeb t = true <-> in_range t.
Proof.
  unfold in_rangeb, in_range.
  rewrite andb_true_iff, !Z.leb_le. tauto.
Qed.

Lemma mkDate_in_range (t : Z) : in_range t -> mkDate t = DateOf t.
Proof.
  intros H. unfold mkDate. apply in_rangeb_spec in H. now rewrite H.
Qed.

Lemma mkDate_cases (t : Z) :
  (in_range t /\ mkDate t = DateOf t) \/ (~ in_range t /\ mkDate t = InvalidDate).
Proof.
  unfold mkDate. destruct (in_rangeb t) eqn:E.
  - left. split; [now apply in_rangeb_spec | reflexivity].
  - right. split; [| reflexivity].
    intros H. apply in_rangeb_spec in H. congruence.
Qed.

Lemma mkDate_valid_inv (t x : Z) : mkDate t = DateOf x -> x = t /\ in_range t.
Proof.
  destruct (mkDate_cases t) as [[Hr E] | [_ E]]; rewrite E; intros H.
  - inversion H; subst. auto.
  - discriminate.
Qed.

Lemma clipped_mkDate (t : Z) : clipped (mkDate t).
Proof.
  destruct (mkDate_cases t) as [[Hr E] | [_ E]]; rewrite E; simpl; auto.
Qed.

Lemma clipped_ofTime (o : option Z) : clipped (ofTime o).
Proof.
  destruct o; simpl; [apply clipped_mkDate | exact I].
Qed.

Lemma clipped_zonedTimeToUtc (P : Platform) (d : JSDate) (tz : string) :
  clipped (zonedTimeToUtc P d tz).
Proof.
  destruct d; simpl; [apply clipped_ofTime | exact I].
Qed.

Lemma date_ltb_true (a b : JSDate) :
  date_ltb a b = true <-> exists x y, a = DateOf x /\ b = DateOf y /\ x < y.
Proof.
  split.
  - destruct a as [x|], b as [y|]; simpl; try discriminate.
    intros H. apply Z.ltb_lt in H. eauto.
  - intros (x & y & -> & -> & H). simpl. now apply Z.ltb_lt.
Qed.

Lemma date_ltb_invalid_l (b : JSDate) : date_ltb InvalidDate b = false.
Proof. reflexivity. Qed.

Lemma date_ltb_invalid_r (a : JSDate) : date_ltb a InvalidDate = false.
Proof. destruct a; reflexivity. Qed.

Lemma toISOString_ok (d : JSDate) (t : Z) :
  toISOString d = inr t -> d = DateOf t.
Proof.
  destruct d; simpl; intros H; inversion H; reflexivity.
Qed.

Lemma msPerMinute_pos : 0 < msPerMinute.
Proof. reflexivity. Qed.

(** ** The loop, one iteration at a time *)

Section ScanFacts.

Variable P : Platform.
Variable RULES : Rules.
Variable busy : list BusyInterval.
Variable durationMin : Z.
Variable tz : string.
Variable nowUtc endUtc : JSDate.

Local Abbreviation scan' fuel :=
  (scan P RULES fuel busy durationMin tz nowUtc endUtc).
Local Abbreviation step := (stepMs RULES).
Local Abbreviation emitted_from :=
  (emitted_from P RULES busy durationMin tz nowUtc endUtc).

Lemma scan_invalid (fuel : nat) (starts : list Z) :
  scan' (S fuel) InvalidDate starts = Some starts.
Proof. reflexivity. Qed.

(** One iteration: leave the loop, or append [emit c] and move the
    cursor by one grid step. *)
Lemma scan_step (fuel : nat) (c : Z) (starts : list Z) :
  scan' (S fuel) (DateOf c) starts =
  if in_window durationMin endUtc c
  then scan' fuel (mkDate (c + step))
              (starts ++ emit P RULES busy durationMin tz nowUtc c)
  else Some starts.
Proof.
  unfold in_window, emit, accepts, notice_ok, stepMs.
  cbn [scan addMinutes].
  destruct (date_ltb (DateOf c) endUtc); [| reflexivity].
  destruct (date_gtb (mkDate (c + durationMin * msPerMinute)) endUtc);
    [reflexivity |].
  cbn [andb negb].
  destruct (date_gtb (addMinutes nowUtc (MIN_NOTICE_MIN RULES)) (DateOf c)).
  - cbn [andb negb]. now rewrite app_nil_r.
  - cbn [andb negb].
    destruct (negb (overlaps RULES busy (DateOf c)
                      (mkDate (c + durationMin * msPerMinute)))
              && withinWorkHours P RULES c tz);
      [reflexivity | now rewrite app_nil_r].
Qed.

(** More fuel does not change a result. *)
Lemma scan_fuel_S (fuel : nat) :
  forall cursor starts r,
    scan' fuel cursor starts = Some r ->
    scan' (S fuel) cursor starts = Some r.
Proof.
  induction fuel as [| fuel IH]; intros cursor starts r H.
  - discriminate.
  - destruct cursor as [c |]; [| exact H].
    rewrite scan_step in H. rewrite scan_step.
    destruct (in_window durationMin endUtc c); [| exact H].
    now apply IH.
Qed.

Lemma scan_fuel_le (fuel fuel' : nat) (cursor : JSDate) (starts r : list Z) :
  (fuel <= fuel')%nat ->
  scan' fuel cursor starts = Some r ->
  scan' fuel' cursor starts = Some r.
Proof.
  induction 1 as [| m Hle IH]; intros H; [exact H |].
  apply scan_fuel_S. now apply IH.
Qed.

Lemma scan_fuel_agree (f1 f2 : nat) (cursor : JSDate) (starts r1 r2 : list Z) :
  scan' f1 cursor starts = Some r1 ->
  scan' f2 cursor starts = Some r2 ->
  r1 = r2.
Proof.
  intros H1 H2.
  destruct (Nat.le_ge_cases f1 f2) as [Hle | Hle].
  - apply (scan_fuel_le _ _ _ _ _ Hle) in H1. congruence.
  - apply (scan_fuel_le _ _ _ _ _ Hle) in H2. congruence.
Qed.

(** The loop ends when the grid step is positive. *)
Lemma scan_terminates_from (e : Z) :
  0 < SLOT_INTERVAL_MIN RULES ->
  endUtc = DateOf e ->
  forall (fuel : nat) (c : Z) (starts : list Z),
    e - c < Z.of_nat fuel ->
    exists r, scan' (S fuel) (DateOf c) starts = Some r.
Proof.
  intros Hpos He. induction fuel as [| fuel IH]; intros c starts Hm.
  - rewrite scan_step. unfold in_window. rewrite He. simpl.
    assert ((c <? e) = false) as -> by (apply Z.ltb_ge; lia).
    simpl. eauto.
  - rewrite scan_step.
    destruct (in_window durationMin endUtc c) eqn:Hw; [| eauto].
    destruct (mkDate_cases (c + step)) as [[_ E] | [_ E]]; rewrite E.
    + apply IH. unfold stepMs. pose proof msPerMinute_pos. nia.
    + rewrite scan_invalid. eauto.
Qed.

Lemma scan_terminates (cursor : JSDate) (starts : list Z) :
  0 < SLOT_INTERVAL_MIN RULES ->
  exists fuel r, scan' fuel cursor starts = Some r.
Proof.
  intros Hpos.
  destruct cursor as [c |]; [| exists 1%nat, starts; reflexivity].
  assert (Hcase : (exists e, endUtc = DateOf e) \/ endUtc = InvalidDate)
    by (destruct endUtc; eauto).
  destruct Hcase as [[e He] | He].
  - destruct (scan_terminates_from e Hpos He
                (Z.to_nat (e - c + 1)) c starts) as [r Hr]; [lia |].
    eauto.
  - exists 1%nat, starts. rewrite scan_step. unfold in_window.
    now rewrite He, date_ltb_invalid_r.
Qed.

Lemma emitted_from_step (c x : Z) :
  emitted_from (c + step) x -> emitted_from c x.
Proof.
  intros (k & -> & Hw & Ha). exists (S k).
  replace (c + Z.of_nat (S k) * step) with (c + step + Z.of_nat k * step)
    by lia.
  auto.
Qed.

Lemma emit_cases (c : Z) :
  (accepts P RULES busy durationMin tz nowUtc c = true
   /\ emit P RULES busy durationMin tz nowUtc c = [c])
  \/ (accepts P RULES busy durationMin tz nowUtc c = false
      /\ emit P RULES busy durationMin tz nowUtc c = []).
Proof.
  unfold emit. destruct (accepts P RULES busy durationMin tz nowUtc c); auto.
Qed.

(** The result extends [starts] by instants that passed every test, lie
    on the grid from the cursor and, for a positive step, ascend. *)
Lemma scan_sound (fuel : nat) :
  forall (cursor : JSDate) (starts r : list Z),
    scan' fuel cursor starts = Some r ->
    exists l,
      r = starts ++ l
      /\ forall c, cursor = DateOf c ->
           Forall (emitted_from c) l
           /\ (0 < step -> StronglySorted Z.lt l /\ Forall (Z.le c) l).
Proof.
  induction fuel as [| fuel IH]; intros cursor starts r H; [discriminate |].
  destruct cursor as [c |].
  2:{ rewrite scan_invalid in H. inversion H; subst.
      exists []. rewrite app_nil_r. split; [reflexivity | discriminate]. }
  rewrite scan_step in H.
  destruct (in_window durationMin endUtc c) eqn:Hw.
  2:{ inversion H; subst. exists []. rewrite app_nil_r.
      split; [reflexivity |]. intros c' _. repeat split; constructor. }
  assert (Htail : exists l,
             r = (starts ++ emit P RULES busy durationMin tz nowUtc c) ++ l
             /\ Forall (emitted_from c) l
             /\ (0 < step -> StronglySorted Z.lt l /\ Forall (Z.lt c) l)).
  { destruct (mkDate_cases (c + step)) as [[_ E] | [_ E]]; rewrite E in H.
    - apply IH in H. destruct H as (l & -> & Hl).
      destruct (Hl _ eq_refl) as [Hem Hs].
      exists l. split; [reflexivity |]. split.
      + eapply Forall_impl; [| exact Hem]. intros x. apply emitted_from_step.
      + intros Hpos. destruct (Hs Hpos) as [Hss Hle]. split; [exact Hss |].
        eapply Forall_impl; [| exact Hle]. intros x Hx. simpl in Hx. lia.
    - destruct fuel as [| fuel']; [discriminate |].
      rewrite scan_invalid in H. inversion H; subst.
      exists []. rewrite app_nil_r. split; [reflexivity |].
      repeat split; constructor. }
  destruct Htail as (l & -> & Hem & Hs).
  exists (emit P RULES busy durationMin tz nowUtc c ++ l).
  split; [now rewrite app_assoc |].
  intros c' Hc'. inversion Hc'; subst c'. clear Hc'.
  destruct (emit_cases c) as [[Ha ->] | [_ ->]]; simpl.
  - split.
    + constructor; [| exact Hem].
      exists 0%nat. repeat split; auto. simpl. lia.
    + intros Hpos. destruct (Hs Hpos) as [Hss Hlt]. split.
      * constructor; assumption.
      * constructor; [lia |].
        eapply Forall_impl; [| exact Hlt]. intros x Hx. simpl. lia.
  - split; [exact Hem |].
    intros Hpos. destruct (Hs Hpos) as [Hss Hlt]. split; [exact Hss |].
    eapply Forall_impl; [| exact Hlt]. intros x Hx. simpl. lia.
Qed.

Lemma scan_extends (fuel : nat) (cursor : JSDate) (starts r : list Z) (x : Z) :
  scan' fuel cursor starts = Some r -> In x starts -> In x r.
Proof.
  intros H Hx. apply scan_sound in H. destruct H as (l & -> & _).
  apply in_or_app. now left.
Qed.

(** A grid position that the cursor reaches and that passes the three
    tests is in the result, whatever happened at earlier positions. *)
Lemma scan_complete (fuel : nat) :
  0 < step ->
  clipped endUtc ->
  forall (c : Z) (starts r : list Z) (k : nat),
    in_range c ->
    scan' fuel (DateOf c) starts = Some r ->
    (forall j : nat, (j <= k)%nat ->
       in_window durationMin endUtc (c + Z.of_nat j * step) = true) ->
    accepts P RULES busy durationMin tz nowUtc (c + Z.of_nat k * step) = true ->
    In (c + Z.of_nat k * step) r.
Proof.
  intros Hpos Hend.
  induction fuel as [| fuel IH]; intros c starts r k Hc H Hreach Hacc;
    [discriminate |].
  rewrite scan_step in H.
  pose proof (Hreach 0%nat (Nat.le_0_l k)) as Hw0.
  replace (c + Z.of_nat 0 * step) with c in Hw0 by (simpl; lia).
  rewrite Hw0 in H.
  destruct k as [| k].
  - replace (c + Z.of_nat 0 * step) with c in * by (simpl; lia).
    unfold emit in H. rewrite Hacc in H.
    eapply scan_extends; [exact H |].
    apply in_or_app. right. now left.
  - assert (Hnext : in_range (c + step)).
    { pose proof (Hreach 1%nat ltac:(lia)) as Hw1.
      replace (c + Z.of_nat 1 * step) with (c + step) in Hw1 by lia.
      unfold in_window in Hw1. apply andb_true_iff in Hw1.
      destruct Hw1 as [Hlt _]. apply date_ltb_true in Hlt.
      destruct Hlt as (x & e & Hx & He & Hxe). inversion Hx; subst x.
      rewrite He in Hend. simpl in Hend.
      unfold in_range in *. lia. }
    rewrite (mkDate_in_range _ Hnext) in H.
    replace (c + Z.of_nat (S k) * step) with (c + step + Z.of_nat k * step)
      in * by lia.
    eapply IH; [exact Hnext | exact H | | exact Hacc].
    intros j Hj.
    replace (c + step + Z.of_nat j * step) with (c + Z.of_nat (S j) * step)
      by lia.
    apply Hreach. lia.
Qed.

End ScanFacts.

(** ** Unfolding a successful call *)

Section Unfold.

Variable P : Platform.
Variable RULES : Rules.

Lemma workWindow_ok (date tz : string) (ws we : Z) :
  workWindow P RULES date tz = inr (ws, we) ->
  zonedTimeToUtc P (workStartLocal P RULES date) tz = DateOf ws
  /\ zonedTimeToUtc P (workEndLocal P RULES date) tz = DateOf we
  /\ in_range ws /\ in_range we.
Proof.
  unfold workWindow, bind. intros H.
  pose proof (clipped_zonedTimeToUtc P (workStartLocal P RULES date) tz) as Cs.
  pose proof (clipped_zonedTimeToUtc P (workEndLocal P RULES date) tz) as Ce.
  destruct (zonedTimeToUtc P (workStartLocal P RULES date) tz) as [s |];
    [| discriminate].
  destruct (zonedTimeToUtc P (workEndLocal P RULES date) tz) as [e |];
    [| discriminate].
  simpl in H. inversion H; subst. auto.
Qed.

(** A call that returns a sequence built its window, obtained the busy
    list for it and ran the loop from [window.start]. *)
Lemma computeAvailability_ok (fuel : nat)
  (freeBusy : Z -> Z -> Result (list BusyInterval)) (now : Z)
  (date : string) (durationMin : Z) (tz : string) (starts : list Z) :
  computeAvailability P RULES fuel freeBusy now date durationMin tz
    = Some (inr starts) ->
  exists ws we busy,
    workWindow P RULES date tz = inr (ws, we)
    /\ freeBusy ws we = inr busy
    /\ in_range ws /\ in_range we
    /\ scan P RULES fuel busy durationMin tz (mkDate now) (DateOf we)
            (DateOf ws) [] = Some starts.
Proof.
  unfold computeAvailability. intros H.
  destruct (workWindow P RULES date tz) as [e | [ws we]] eqn:Hw;
    [discriminate |].
  destruct (workWindow_ok _ _ _ _ Hw) as (Es & Ee & Rs & Re).
  rewrite Es, Ee in H.
  destruct (freeBusy ws we) as [e | busy] eqn:Hb; [discriminate |].
  destruct (scan P RULES fuel busy durationMin tz (mkDate now) (DateOf we)
              (DateOf ws) []) as [r |] eqn:Hs; [| discriminate].
  inversion H; subst. exists ws, we, busy. auto.
Qed.

End Unfold.

(** ** The buffer test *)

Lemma existsb_false {A : Type} (f : A -> bool) (l : list A) :
  existsb f l = false -> forall x, In x l -> f x = false.
Proof.
  induction l as [| a l IH]; simpl; intros H x Hx; [contradiction |].
  apply orb_false_iff in H. destruct H as [Ha Hl].
  destruct Hx as [<- | Hx]; auto.
Qed.

Section Buffer.

Variable RULES : Rules.

Local Abbreviation buf := (BUFFER_MIN RULES * msPerMinute).

(** One busy entry makes the test succeed only through two valid bounds
    that strictly cross the padded bounds. *)
Lemma overlaps_false_all (busy : list BusyInterval) (c : Z) (durationMin : Z) :
  (forall b bs be,
      In b busy -> b_start b = DateOf bs -> b_end b = DateOf be ->
      be <= c - buf \/ c + durationMin * msPerMinute + buf <= bs) ->
  overlaps RULES busy (DateOf c) (addMinutes (DateOf c) durationMin) = false.
Proof.
  intros H. unfold overlaps.
  destruct (existsb _ busy) eqn:E; [| reflexivity].
  apply existsb_exists in E. destruct E as (b & Hb & Hc).
  apply andb_true_iff in Hc. destruct Hc as [H1 H2].
  unfold date_gtb in H2.
  apply date_ltb_true in H1. destruct H1 as (x & be & Hx & Hbe & Hlt1).
  apply date_ltb_true in H2. destruct H2 as (bs & y & Hbs & Hy & Hlt2).
  simpl in Hx. apply mkDate_valid_inv in Hx. destruct Hx as [-> _].
  simpl in Hy.
  destruct (mkDate_cases (c + durationMin * msPerMinute)) as [[_ E] | [_ E]];
    rewrite E in Hy; simpl in Hy; [| discriminate].
  apply mkDate_valid_inv in Hy. destruct Hy as [-> _].
  destruct (H b bs be Hb Hbs Hbe); lia.
Qed.

(** When the padded bounds are representable, a failed test separates
    the padded occupancy from every busy entry. *)
Lemma overlaps_false_inv (busy : list BusyInterval) (c : Z) (durationMin : Z) :
  overlaps RULES busy (DateOf c) (addMinutes (DateOf c) durationMin) = false ->
  in_range (c - buf) ->
  in_range (c + durationMin * msPerMinute) ->
  in_range (c + durationMin * msPerMinute + buf) ->
  forall b bs be,
    In b busy -> b_start b = DateOf bs -> b_end b = DateOf be ->
    be <= c - buf \/ c + durationMin * msPerMinute + buf <= bs.
Proof.
  intros H R1 R2 R3 b bs be Hb Hbs Hbe.
  unfold overlaps in H.
  assert (Hf := existsb_false _ _ H b Hb). clear H.
  simpl in Hf.
  replace (c + - BUFFER_MIN RULES * msPerMinute) with (c - buf) in Hf by lia.
  rewrite (mkDate_in_range _ R1), (mkDate_in_range _ R2) in Hf.
  simpl in Hf. rewrite (mkDate_in_range _ R3), Hbs, Hbe in Hf.
  unfold date_gtb in Hf. simpl in Hf.
  apply andb_false_iff in Hf. destruct Hf as [Hf | Hf];
    apply Z.ltb_ge in Hf; lia.
Qed.

End Buffer.

(** ** What a returned sequence contains *)

Section Sequence.

Variable P : Platform.
Variable RULES : Rules.
Variable freeBusy : Z -> Z -> Result (list BusyInterval).
Variable now : Z.
Variable date : string.
Variable durationMin : Z.
Variable tz : string.

Variable fuel : nat.
Variable starts : list Z.
Variable ws we : Z.
Variable busy : list BusyInterval.

Hypothesis Hcall :
  computeAvailability P RULES fuel freeBusy now date durationMin tz
    = Some (inr starts).
Hypothesis Hwindow : workWindow P RULES date tz = inr (ws, we).
Hypothesis Hbusy : freeBusy ws we = inr busy.

Lemma call_scan :
  in_range ws /\ in_range we
  /\ scan P RULES fuel busy durationMin tz (mkDate now) (DateOf we)
          (DateOf ws) [] = Some starts.
Proof.
  destruct (computeAvailability_ok _ _ _ _ _ _ _ _ _ Hcall)
    as (ws' & we' & busy' & Hw' & Hb' & Rs & Re & Hs).
  rewrite Hwindow in Hw'. inversion Hw'; subst ws' we'.
  rewrite Hbusy in Hb'. inversion Hb'; subst busy'. auto.
Qed.

Lemma starts_emitted (s : Z) :
  In s starts ->
  emitted_from P RULES busy durationMin tz (mkDate now) (DateOf we) ws s.
Proof.
  intros Hs. destruct call_scan as (_ & _ & Hscan).
  apply scan_sound in Hscan. destruct Hscan as (l & Hl & Hall).
  simpl in Hl. subst l.
  destruct (Hall ws eq_refl) as [Hem _].
  rewrite Forall_forall in Hem. now apply Hem.
Qed.

Lemma starts_sorted :
  0 < SLOT_INTERVAL_MIN RULES ->
  StronglySorted Z.lt starts /\ Forall (Z.le ws) starts.
Proof.
  intros Hpos. destruct call_scan as (_ & _ & Hscan).
  apply scan_sound in Hscan. destruct Hscan as (l & Hl & Hall).
  simpl in Hl. subst l.
  destruct (Hall ws eq_refl) as [_ Hs]. apply Hs.
  unfold stepMs. pose proof msPerMinute_pos. nia.
Qed.

(** A position whose slot ends by [window.end] passes the loop guard and
    the end-of-work test. *)
Lemma in_window_before (c : Z) :
  c < we -> c + durationMin * msPerMinute <= we ->
  in_window durationMin (DateOf we) c = true.
Proof.
  intros H1 H2. unfold in_window, date_gtb. simpl.
  apply andb_true_iff. split; [now apply Z.ltb_lt |].
  destruct (mkDate_cases (c + durationMin * msPerMinute)) as [[_ E] | [_ E]];
    rewrite E; simpl; [| reflexivity].
  apply negb_true_iff. apply Z.ltb_ge. lia.
Qed.

Lemma starts_complete (k : nat) :
  0 < SLOT_INTERVAL_MIN RULES ->
  ws + Z.of_nat k * stepMs RULES < we ->
  ws + Z.of_nat k * stepMs RULES + durationMin * msPerMinute <= we ->
  accepts P RULES busy durationMin tz (mkDate now)
          (ws + Z.of_nat k * stepMs RULES) = true ->
  In (ws + Z.of_nat k * stepMs RULES) starts.
Proof.
  intros Hpos H1 H2 Hacc. destruct call_scan as (Rs & Re & Hscan).
  assert (Hstep : 0 < stepMs RULES)
    by (unfold stepMs; pose proof msPerMinute_pos; nia).
  apply (scan_complete P RULES busy durationMin tz (mkDate now) (DateOf we)
           fuel Hstep Re ws [] starts k Rs Hscan); [| exact Hacc].
  intros j Hj. apply in_window_before; nia.
Qed.

End Sequence.

(** ** Properties of [computeAvailability] *)

Section Availability.

Variable P : Platform.
Variable RULES : Rules.

Local Abbreviation buf := (BUFFER_MIN RULES * msPerMinute).

(** With a positive grid step a call whose window was built and whose
    provider answered returns a sequence. *)
Lemma computeAvailability_returns
  (freeBusy : Z -> Z -> Result (list BusyInterval)) (now : Z)
  (date : string) (durationMin : Z) (tz : string)
  (ws we : Z) (busy : list BusyInterval) :
  0 < SLOT_INTERVAL_MIN RULES ->
  workWindow P RULES date tz = inr (ws, we) ->
  freeBusy ws we = inr busy ->
  exists fuel starts,
    computeAvailability P RULES fuel freeBusy now date durationMin tz
      = Some (inr starts).
Proof.
  intros Hpos Hw Hb.
  destruct (workWindow_ok _ _ _ _ _ _ Hw) as (Es & Ee & _ & _).
  destruct (scan_terminates P RULES busy durationMin tz (mkDate now)
              (DateOf we) (DateOf ws) [] Hpos) as (fuel & r & Hr).
  exists fuel, r. unfold computeAvailability.
  now rewrite Hw, Hb, Es, Ee, Hr.
Qed.

(** C1 (as the code has it).  For a positive grid step, a window that
    was built and any list that the provider returned (no order or
    disjointness is assumed), the call returns a sequence, and of every
    sequence it returns the following holds.  The padded occupancy
    [[startInstant - bufferMinutes, startInstant + durationMinutes +
    bufferMinutes)] of an emitted candidate shares no instant with a
    fetched busy interval, provided the slot end and the padded bounds
    are time values that a Date can hold.  A grid position all of whose
    busy intervals end at or before the padded start, or begin at or
    after the padded end, is emitted once the notice and work-hour tests
    pass: touching does not suppress it. *)
Theorem C1_padded_occupancy_clear
  (freeBusy : Z -> Z -> Result (list BusyInterval)) (now : Z)
  (date : string) (durationMin : Z) (tz : string)
  (ws we : Z) (busy : list BusyInterval)
  (Hpos : 0 < SLOT_INTERVAL_MIN RULES)
  (Hwindow : workWindow P RULES date tz = inr (ws, we))
  (Hbusy : freeBusy ws we = inr busy) :
  (exists fuel starts,
      computeAvailability P RULES fuel freeBusy now date durationMin tz
        = Some (inr starts))
  /\ forall fuel starts,
       computeAvailability P RULES fuel freeBusy now date durationMin tz
         = Some (inr starts) ->
       (forall s b bs be,
           In s starts -> In b busy ->
           b_start b = DateOf bs -> b_end b = DateOf be ->
           padding_representable RULES durationMin s ->
           ~ intersects (s - buf) (s + durationMin * msPerMinute + buf) bs be)
       /\ (forall k : nat,
             let c := ws + Z.of_nat k * stepMs RULES in
             c < we -> c + durationMin * msPerMinute <= we ->
             notice_ok RULES (mkDate now) c = true ->
             withinWorkHours P RULES c tz = true ->
             (forall b bs be,
                 In b busy -> b_start b = DateOf bs -> b_end b = DateOf be ->
                 be <= c - buf \/ c + durationMin * msPerMinute + buf <= bs) ->
             In c starts).
Proof.
  split; [now apply (computeAvailability_returns freeBusy now date durationMin tz
                      ws we busy) |].
  intros fuel starts Hcall. split.
  - intros s b bs be Hs Hb Hbs Hbe (R1 & R2 & R3) Hint.
    destruct (starts_emitted P RULES _ _ _ _ _ _ _ _ _ _ Hcall Hwindow Hbusy s Hs)
      as (k & _ & _ & Hacc).
    unfold accepts in Hacc.
    apply andb_true_iff in Hacc. destruct Hacc as [Hacc _].
    apply andb_true_iff in Hacc. destruct Hacc as [_ Hov].
    apply negb_true_iff in Hov.
    destruct (overlaps_false_inv RULES busy s durationMin Hov R1 R2 R3
                b bs be Hb Hbs Hbe);
      unfold intersects in Hint; lia.
  - intros k c H1 H2 Hn Hh Htouch. subst c.
    eapply starts_complete; eauto.
    unfold accepts. rewrite Hn, Hh.
    now rewrite (overlaps_false_all RULES busy _ durationMin Htouch).
Qed.


(** C3.  The returned sequence is strictly ascending, and every emitted
    instant is [window.start] plus a natural multiple of the grid step. *)
Theorem C3_ascending_on_grid
  (fuel : nat) (freeBusy : Z -> Z -> Result (list BusyInterval)) (now : Z)
  (date : string) (durationMin : Z) (tz : string)
  (starts : list Z) (ws we : Z) (busy : list BusyInterval)
  (Hpos : 0 < SLOT_INTERVAL_MIN RULES)
  (Hcall : computeAvailability P RULES fuel freeBusy now date durationMin tz
           = Some (inr starts))
  (Hwindow : workWindow P RULES date tz = inr (ws, we))
  (Hbusy : freeBusy ws we = inr busy) :
  StronglySorted Z.lt starts
  /\ forall s, In s starts ->
       exists k : nat,
         s = ws + Z.of_nat k * (SLOT_INTERVAL_MIN RULES * msPerMinute).
Proof.
  split.
  - now destruct (starts_sorted P RULES _ _ _ _ _ _ _ _ _ _
                    Hcall Hwindow Hbusy Hpos).
  - intros s Hs.
    destruct (starts_emitted P RULES _ _ _ _ _ _ _ _ _ _ Hcall Hwindow Hbusy s Hs)
      as (k & Hk & _).
    exists k. exact Hk.
Qed.

(** C4 (as the code has it).  For a positive grid step the call returns
    a sequence, and of every sequence it returns the following holds at
    every grid position inside the window.  A cursor strictly before
    [nowInstant + minNoticeMinutes] is not emitted, provided the current
    instant and that sum are time values that a Date can hold.  A cursor
    at or after [nowInstant + minNoticeMinutes], the boundary instant
    included, is emitted when the buffer and work-hour tests pass.  The
    position is arbitrary: earlier positions that were skipped for
    notice do not end the scan. *)
Theorem C4_notice_skip_is_strict_and_local
  (freeBusy : Z -> Z -> Result (list BusyInterval)) (now : Z)
  (date : string) (durationMin : Z) (tz : string)
  (ws we : Z) (busy : list BusyInterval)
  (Hpos : 0 < SLOT_INTERVAL_MIN RULES)
  (Hwindow : workWindow P RULES date tz = inr (ws, we))
  (Hbusy : freeBusy ws we = inr busy) :
  (exists fuel starts,
      computeAvailability P RULES fuel freeBusy now date durationMin tz
        = Some (inr starts))
  /\ forall fuel starts,
       computeAvailability P RULES fuel freeBusy now date durationMin tz
         = Some (inr starts) ->
       forall k : nat,
         let c := ws + Z.of_nat k * stepMs RULES in
         c < we -> c + durationMin * msPerMinute <= we ->
         (in_range now ->
          in_range (now + MIN_NOTICE_MIN RULES * msPerMinute) ->
          c < now + MIN_NOTICE_MIN RULES * msPerMinute ->
          ~ In c starts)
         /\ (now + MIN_NOTICE_MIN RULES * msPerMinute <= c ->
             overlaps RULES busy (DateOf c) (addMinutes (DateOf c) durationMin)
               = false ->
             withinWorkHours P RULES c tz = true ->
             In c starts).
Proof.
  split; [now apply (computeAvailability_returns freeBusy now date durationMin tz
                      ws we busy) |].
  intros fuel starts Hcall k c H1 H2. split.
  - intros Hnow Hnotice Hlt Hin.
    destruct (starts_emitted P RULES _ _ _ _ _ _ _ _ _ _ Hcall Hwindow Hbusy c Hin)
      as (k' & _ & _ & Hacc).
    unfold accepts, notice_ok, date_gtb in Hacc.
    rewrite (mkDate_in_range _ Hnow) in Hacc. simpl in Hacc.
    rewrite (mkDate_in_range _ Hnotice) in Hacc. simpl in Hacc.
    apply Z.ltb_lt in Hlt. rewrite Hlt in Hacc. discriminate.
  - intros Hge Hov Hh. subst c.
    eapply starts_complete; eauto.
    unfold accepts. rewrite Hov, Hh.
    assert (Hn : notice_ok RULES (mkDate now)
                   (ws + Z.of_nat k * stepMs RULES) = true).
    { unfold notice_ok, date_gtb.
      destruct (mkDate now) as [n |] eqn:En; [| reflexivity].
      apply mkDate_valid_inv in En. destruct En as [-> _]. simpl.
      destruct (mkDate_cases (now + MIN_NOTICE_MIN RULES * msPerMinute))
        as [[_ E] | [_ E]]; rewrite E; simpl; [| reflexivity].
      apply negb_true_iff, Z.ltb_ge. lia. }
    now rewrite Hn.
Qed.

(** Every emitted instant passed [withinWorkHours]: its weekday in the
    request zone is a work day and its hour is within the work hours. *)
Lemma emitted_within_work_hours
  (fuel : nat) (freeBusy : Z -> Z -> Result (list BusyInterval)) (now : Z)
  (date : string) (durationMin : Z) (tz : string)
  (starts : list Z) (s : Z) :
  computeAvailability P RULES fuel freeBusy now date durationMin tz
    = Some (inr starts) ->
  In s starts ->
  includes (WORK_DAYS RULES) (zonedDay P s tz) = true
  /\ WORK_START_HOUR RULES <= zonedHours P s tz < WORK_END_HOUR RULES.
Proof.
  intros Hcall Hs.
  destruct (computeAvailability_ok _ _ _ _ _ _ _ _ _ Hcall)
    as (ws & we & busy & Hw & Hb & _).
  destruct (starts_emitted P RULES _ _ _ _ _ _ _ _ _ _ Hcall Hw Hb s Hs)
    as (k & _ & _ & Hacc).
  unfold accepts in Hacc. apply andb_true_iff in Hacc.
  destruct Hacc as [_ Hh]. unfold withinWorkHours in Hh.
  destruct (includes (WORK_DAYS RULES) (zonedDay P s tz)); [| discriminate].
  simpl in Hh. apply andb_true_iff in Hh. destruct Hh as [Ha Hb'].
  apply Z.leb_le in Ha. apply Z.ltb_lt in Hb'. auto.
Qed.

(** C6 (as the code has it).  No test of [durationMinutes] exists: for
    [durationMinutes <= 0], a window that was built, a provider that
    answered and a positive grid step, the call returns a sequence, and
    that sequence holds every grid position before [window.end] that
    passes the notice, buffer and work-hour tests. *)
Theorem C6_nonpositive_duration_is_scanned
  (freeBusy : Z -> Z -> Result (list BusyInterval)) (now : Z)
  (date : string) (durationMin : Z) (tz : string)
  (ws we : Z) (busy : list BusyInterval)
  (Hdur : durationMin <= 0)
  (Hpos : 0 < SLOT_INTERVAL_MIN RULES)
  (Hwindow : workWindow P RULES date tz = inr (ws, we))
  (Hbusy : freeBusy ws we = inr busy) :
  exists fuel starts,
    computeAvailability P RULES fuel freeBusy now date durationMin tz
      = Some (inr starts)
    /\ forall k : nat,
         let c := ws + Z.of_nat k * stepMs RULES in
         c < we ->
         accepts P RULES busy durationMin tz (mkDate now) c = true ->
         In c starts.
Proof.
  destruct (computeAvailability_returns freeBusy now date durationMin tz
              ws we busy Hpos Hwindow Hbusy) as (fuel & starts & Hcall).
  exists fuel, starts. split; [exact Hcall |].
  intros k c Hlt Hacc. subst c.
  pose proof msPerMinute_pos.
  eapply starts_complete; eauto. nia.
Qed.

(** C7 (as the code has it).  A [date] that [new Date] turns into the
    Invalid Date makes the call fail with the RangeError of [toISOString]
    on the Invalid Date; the failure precedes the provider call and the
    loop, so it does not depend on them and no sequence is returned.
    Nothing else is asked of the string. *)
Theorem C7_unparsable_date_fails
  (fuel : nat) (freeBusy : Z -> Z -> Result (list BusyInterval)) (now : Z)
  (date : string) (durationMin : Z) (tz : string)
  (Hdate : newDate P date = InvalidDate) :
  workWindow P RULES date tz = inl RangeError_InvalidTimeValue
  /\ computeAvailability P RULES fuel freeBusy now date durationMin tz
     = Some (inl RangeError_InvalidTimeValue).
Proof.
  assert (Hw : workWindow P RULES date tz = inl RangeError_InvalidTimeValue).
  { unfold workWindow, workStartLocal. now rewrite Hdate. }
  split; [exact Hw |].
  unfold computeAvailability. now rewrite Hw.
Qed.

(** C9.  The result is a function of the inputs: two calls on the same
    date, duration, zone, rules and current instant, whose providers
    answer alike for the window of that date, return the same value. *)
Theorem C9_deterministic
  (fuel1 fuel2 : nat) (freeBusy1 freeBusy2 : Z -> Z -> Result (list BusyInterval))
  (now : Z) (date : string) (durationMin : Z) (tz : string)
  (r1 r2 : Result (list Z))
  (Hsame : forall timeMin timeMax,
      workWindow P RULES date tz = inr (timeMin, timeMax) ->
      freeBusy1 timeMin timeMax = freeBusy2 timeMin timeMax)
  (H1 : computeAvailability P RULES fuel1 freeBusy1 now date durationMin tz
        = Some r1)
  (H2 : computeAvailability P RULES fuel2 freeBusy2 now date durationMin tz
        = Some r2) :
  r1 = r2.
Proof.
  unfold computeAvailability in H1, H2.
  destruct (workWindow P RULES date tz) as [e | [ws we]] eqn:Hw;
    [congruence |].
  rewrite (Hsame ws we eq_refl) in H1.
  destruct (freeBusy2 ws we) as [e | busy]; [congruence |].
  destruct (scan P RULES fuel1 busy durationMin tz (mkDate now)
              (zonedTimeToUtc P (workEndLocal P RULES date) tz)
              (zonedTimeToUtc P (workStartLocal P RULES date) tz) [])
    as [l1 |] eqn:S1; [| discriminate].
  destruct (scan P RULES fuel2 busy durationMin tz (mkDate now)
              (zonedTimeToUtc P (workEndLocal P RULES date) tz)
              (zonedTimeToUtc P (workStartLocal P RULES date) tz) [])
    as [l2 |] eqn:S2; [| discriminate].
  rewrite (scan_fuel_agree _ _ _ _ _ _ _ _ _ _ _ _ _ S1 S2) in H1.
  congruence.
Qed.

End Availability.

(** ** Properties of [normalizeRange] *)

Section Range.

Variable P : Platform.

(** Past the presence test, inputs that are not both bare dates go
    through [parseISO]; the zone is not consulted and the two instants
    are not compared. *)
Lemma normalizeRange_timestamps (start end_ tz : string) :
  falsy start = false -> falsy end_ = false ->
  isDateOnly start && isDateOnly end_ = false ->
  normalizeRange P start end_ tz =
  match parseISO P start, parseISO P end_ with
  | DateOf s, DateOf e => inr (s, e)
  | _, _ => inl Error_InvalidStartEnd
  end.
Proof.
  intros Hs He Hd. unfold normalizeRange.
  rewrite Hs, He, Hd. simpl.
  destruct (parseISO P start) as [s |], (parseISO P end_) as [e |];
    reflexivity.
Qed.

(** C8 (as the code has it).  When at least one input is not a bare
    calendar date, both inputs go through [parseISO]: the call fails
    with the invalid start/end error when either does not parse, and
    otherwise returns the two parsed instants as they are, whatever
    their order. *)
Theorem C8_timestamps_parsed_not_ordered (start end_ tz : string)
  (Hstart : falsy start = false) (Hend : falsy end_ = false)
  (Hshape : isDateOnly start && isDateOnly end_ = false) :
  (isValid (parseISO P start) && isValid (parseISO P end_) = false ->
   normalizeRange P start end_ tz = inl Error_InvalidStartEnd)
  /\ (forall s e,
        parseISO P start = DateOf s -> parseISO P end_ = DateOf e ->
        normalizeRange P start end_ tz = inr (s, e)).
Proof.
  rewrite (normalizeRange_timestamps start end_ tz Hstart Hend Hshape).
  split.
  - destruct (parseISO P start), (parseISO P end_); simpl;
      intros H; try reflexivity; discriminate.
  - intros s e -> ->. reflexivity.
Qed.

(** A string that [parseISO] parses is present. *)
Lemma parseISO_present (str : string) (t : Z) :
  parseISO P str = DateOf t -> falsy str = false.
Proof.
  unfold parseISO. destruct (falsy str); [discriminate | reflexivity].
Qed.

(** The zone reaches the result only when both inputs have the bare
    date shape. *)
Lemma normalizeRange_zone_unused (start end_ tz tz' : string) :
  isDateOnly start && isDateOnly end_ = false ->
  normalizeRange P start end_ tz' = normalizeRange P start end_ tz.
Proof.
  intros Hd. unfold normalizeRange. now rewrite Hd.
Qed.

(** C10.  When exactly one input has the bare date shape, neither input
    gets the full-day reading in the zone: both go through [parseISO],
    the call returns the two parsed instants whenever both parse, and
    the zone argument does not change the result. *)
Theorem C10_mixed_shapes_use_parseISO (start end_ tz : string)
  (Hshape : xorb (isDateOnly start) (isDateOnly end_) = true) :
  (forall s e,
      parseISO P start = DateOf s -> parseISO P end_ = DateOf e ->
      normalizeRange P start end_ tz = inr (s, e))
  /\ (forall tz', normalizeRange P start end_ tz'
                  = normalizeRange P start end_ tz).
Proof.
  assert (Hd : isDateOnly start && isDateOnly end_ = false)
    by (destruct (isDateOnly start), (isDateOnly end_);
        simpl in Hshape; try discriminate; reflexivity).
  split.
  - intros s e Es Ee.
    rewrite (normalizeRange_timestamps start end_ tz
               (parseISO_present _ _ Es) (parseISO_present _ _ Ee) Hd).
    now rewrite Es, Ee.
  - intros tz'. now apply normalizeRange_zone_unused.
Qed.

End Range.

(** ** The properties on the example requests *)

Import Reference Example.

Ltac in_list := simpl; repeat (first [left; reflexivity | right]).

Ltac decide_num := vm_compute; first [reflexivity | discriminate].

Ltac range := unfold in_range; split; decide_num.

Lemma C1_witness :
  ~ intersects (1754928000000 - 10 * 60000)
               (1754928000000 + 30 * 60000 + 10 * 60000)
               1754926200000 1754927400000
  /\ In 1754929800000 slots.
Proof.
  destruct (C1_padded_occupancy_clear hostUTC defaultRules
              (fixedBusy busyList) sevenAM monday 30 zone
              windowStart windowEnd busyList
              ltac:(reflexivity) eq_refl eq_refl) as [_ Hall].
  destruct (Hall 20%nat slots eq_refl) as [Hclear Htouch].
  split.
  - apply (Hclear 1754928000000 before11 1754926200000 1754927400000);
      [in_list | in_list | reflexivity | reflexivity |].
    repeat split; decide_num.
  - apply (Htouch 5%nat);
      [decide_num | decide_num | reflexivity | reflexivity |].
    intros b bs be Hb Hs He. simpl in Hb.
    repeat (destruct Hb as [<- | Hb]; [inversion Hs; inversion He; subst;
      unfold stepMs, msPerMinute; simpl; lia |]).
    contradiction.
Defined.

(** C1 (counterexample).  With [duration=200000000000] the slot end is
    the Invalid Date, the buffer test compares false against every busy
    entry, and all sixteen grid positions are returned: the 10:00
    position is among them although its padded occupancy, taken as the
    claim writes it, contains the whole 10:00 to 10:30 meeting. *)
Lemma C1_overflowing_duration_counterexample :
  computeAvailability hostUTC defaultRules 20 (fixedBusy busyList)
    sevenAM monday hugeDuration zone = Some (inr allSlots)
  /\ In 1754924400000 allSlots
  /\ In meeting busyList
  /\ intersects (1754924400000 - 10 * msPerMinute)
                (1754924400000 + hugeDuration * msPerMinute + 10 * msPerMinute)
                1754924400000 1754926200000.
Proof.
  split; [reflexivity |]. split; [in_list |]. split; [in_list |].
  reflexivity.
Qed.



Lemma C3_witness :
  StronglySorted Z.lt slots
  /\ exists k : nat, 1754928000000 = windowStart + Z.of_nat k * (30 * msPerMinute).
Proof.
  destruct (C3_ascending_on_grid hostUTC defaultRules 20
              (fixedBusy busyList) sevenAM monday 30 zone
              slots windowStart windowEnd busyList
              ltac:(reflexivity) eq_refl eq_refl eq_refl) as [Hsorted Hgrid].
  split; [exact Hsorted |].
  apply (Hgrid 1754928000000). in_list.
Defined.

(** With the clock at 07:30 the 09:00 position is skipped, and the 09:30
    position, which equals the notice boundary, is emitted. *)
Lemma C4_witness :
  ~ In windowStart slotsFrom930 /\ In 1754922600000 slotsFrom930.
Proof.
  destruct (C4_notice_skip_is_strict_and_local hostUTC defaultRules
              noBusy sevenThirty monday 30 zone
              windowStart windowEnd []
              ltac:(reflexivity) eq_refl eq_refl) as [_ Hall].
  pose proof (Hall 20%nat slotsFrom930 eq_refl) as H.
  split.
  - apply (H 0%nat); [decide_num | decide_num | range | range | decide_num].
  - apply (H 1%nat); decide_num.
Defined.

(** C4 (counterexample).  With [MIN_NOTICE_MIN=200000000000] the sum
    [now + notice] is the Invalid Date, the notice test compares false
    and no position is skipped: the 09:00 position is returned although
    it lies before the current instant plus the notice. *)
Lemma C4_overflowing_notice_counterexample :
  computeAvailability hostUTC hugeNoticeRules 20 noBusy sevenThirty
    monday 30 zone = Some (inr allSlots)
  /\ In windowStart allSlots
  /\ windowStart < sevenThirty + MIN_NOTICE_MIN hugeNoticeRules * msPerMinute.
Proof.
  split; [reflexivity |]. split; [in_list | reflexivity].
Qed.

(** C5 (at the failing request).  The host zone is five hours west of
    UTC.  [new Date("2025-08-09")] is midnight UTC, which is 19:00 on
    Friday for the host, so [setHours(.., 0)] goes back to Friday
    midnight: the window and the returned slots are Friday's, although
    the requested date is a Saturday, which is not a work day.  On a host
    in UTC the same request returns the empty sequence. *)
Theorem C5_saturday_request_on_western_host :
  WeekDay 1754697600000 = 6
  /\ Date_parse hostWest saturday = Some 1754697600000
  /\ includes (WORK_DAYS defaultRules) 6 = false
  /\ computeAvailability hostWest defaultRules 20 noBusy thursdayNoon
       saturday 30 zone = Some (inr fridaySlots)
  /\ Forall (fun s => zonedDay hostWest s zone = 5) fridaySlots
  /\ computeAvailability hostUTC defaultRules 20 noBusy thursdayNoon
       saturday 30 zone = Some (inr []).
Proof.
  repeat split; try reflexivity.
  unfold fridaySlots. repeat constructor.
Qed.

(** C6 (counterexample).  A request with [duration=0] is answered with
    the sixteen grid positions of the day; nothing fails. *)
Lemma C6_zero_duration_counterexample :
  0 <= 0
  /\ computeAvailability hostUTC defaultRules 20 noBusy sevenAM monday 0 zone
     = Some (inr allSlots)
  /\ computeAvailability hostUTC defaultRules 20 noBusy sevenAM monday (-30) zone
     = Some (inr allSlots).
Proof.
  split; [lia |]. split; reflexivity.
Qed.

Lemma C6_witness :
  exists fuel starts,
    computeAvailability hostUTC defaultRules fuel noBusy sevenAM monday 0 zone
      = Some (inr starts)
    /\ forall k : nat,
         let c := windowStart + Z.of_nat k * stepMs defaultRules in
         c < windowEnd ->
         accepts hostUTC defaultRules [] 0 zone (mkDate sevenAM) c = true ->
         In c starts.
Proof.
  apply (C6_nonpositive_duration_is_scanned hostUTC defaultRules
           noBusy sevenAM monday 0 zone windowStart windowEnd []);
    [lia | reflexivity | reflexivity | reflexivity].
Defined.

Lemma C7_witness :
  workWindow hostUTC defaultRules "not a date" zone
    = inl RangeError_InvalidTimeValue
  /\ computeAvailability hostUTC defaultRules 0 noBusy sevenAM
       "not a date" 30 zone
     = Some (inl RangeError_InvalidTimeValue).
Proof.
  apply (C7_unparsable_date_fails hostUTC defaultRules 0 noBusy sevenAM
           "not a date" 30 zone).
  reflexivity.
Defined.

(** C7 (counterexample).  The thirty-first of February is not a
    calendar date, yet [new Date("2025-02-31")] is the third of March
    and the call returns the sixteen positions of that Monday. *)
Lemma C7_rolled_over_date_counterexample :
  (days_in_month 2025 2 <? 31) = true
  /\ Date_parse hostUTC februaryThirtyFirst = Date_parse hostUTC "2025-03-03"
  /\ computeAvailability hostUTC defaultRules 20 noBusy midFebruary
       februaryThirtyFirst 30 zone = Some (inr marchThirdSlots).
Proof.
  repeat split; reflexivity.
Qed.

(** C8 (counterexample).  Both inputs are timestamps and the start is a
    day after the end; the call succeeds and returns them in that order. *)
Lemma C8_reversed_range_counterexample :
  isDateOnly "2025-08-12T10:00:00Z" = false
  /\ normalizeRange hostUTC "2025-08-12T10:00:00Z" "2025-08-11T10:00:00Z" zone
     = inr (1754992800000, 1754906400000)
  /\ ~ 1754992800000 < 1754906400000.
Proof.
  split; [reflexivity |]. split; [reflexivity | lia].
Qed.

Lemma C8_witness :
  normalizeRange hostUTC "2025-08-11T10:00:00Z" "2025-08-11T10:00:00Z" zone
    = inr (1754906400000, 1754906400000)
  /\ normalizeRange hostUTC "2025-08-11T10:00:00Z" "tomorrow" zone
     = inl Error_InvalidStartEnd.
Proof.
  split.
  - apply (C8_timestamps_parsed_not_ordered hostUTC
             "2025-08-11T10:00:00Z" "2025-08-11T10:00:00Z" zone
             eq_refl eq_refl eq_refl); reflexivity.
  - apply (C8_timestamps_parsed_not_ordered hostUTC
             "2025-08-11T10:00:00Z" "tomorrow" zone
             eq_refl eq_refl eq_refl); reflexivity.
Defined.

(** The answer of a second call, with more fuel and a provider that
    answers only for the window, is read off the first call. *)
Lemma C9_witness :
  match computeAvailability hostUTC defaultRules 40 windowBusy
          sevenAM monday 30 zone with
  | Some r => r = inr slots
  | None => False
  end.
Proof.
  destruct (computeAvailability hostUTC defaultRules 40 windowBusy
              sevenAM monday 30 zone) as [r |] eqn:H2.
  - symmetry.
    apply (C9_deterministic hostUTC defaultRules 20 40
             (fixedBusy busyList) windowBusy sevenAM monday 30 zone
             (inr slots) r); [| reflexivity | exact H2].
    intros timeMin timeMax H. vm_compute in H.
    injection H as <- <-. reflexivity.
  - vm_compute in H2. discriminate.
Defined.

Lemma C10_witness :
  normalizeRange hostUTC "2025-08-11" "2025-08-12T10:00:00Z" zone
    = inr (1754870400000, 1754992800000)
  /\ normalizeRange hostUTC "2025-08-11" "2025-08-12T10:00:00Z" "UTC"
     = normalizeRange hostUTC "2025-08-11" "2025-08-12T10:00:00Z" zone.
Proof.
  destruct (C10_mixed_shapes_use_parseISO hostUTC
              "2025-08-11" "2025-08-12T10:00:00Z" zone
              eq_refl) as [Hparse Hzone].
  split.
  - apply Hparse; reflexivity.
  - apply Hzone.
Defined.

(** ** Further properties of the slot scan *)

Section ScanBounds.

Variable P : Platform.
Variable RULES : Rules.
Variable durationMin : Z.
Variable tz : string.
Variable nowUtc : JSDate.

Local Abbreviation step := (stepMs RULES).

(** With [n] grid steps covering the distance to the end, [n + 1] loop
    tests are enough and at most [n] instants are appended. *)
Lemma scan_within (busy : list BusyInterval) (e : Z) (n : nat) :
  0 < step ->
  forall (c : Z) (starts : list Z),
    e - c <= Z.of_nat n * step ->
    exists l,
      scan P RULES (S n) busy durationMin tz nowUtc (DateOf e) (DateOf c) starts
        = Some (starts ++ l)
      /\ (List.length l <= n)%nat.
Proof.
  intros Hpos. induction n as [| n IH]; intros c starts Hd.
  - exists []. rewrite scan_step, app_nil_r. unfold in_window. simpl.
    assert ((c <? e) = false) as -> by (apply Z.ltb_ge; lia).
    split; [reflexivity | apply Nat.le_refl].
  - rewrite scan_step.
    destruct (in_window durationMin (DateOf e) c).
    2:{ exists []. rewrite app_nil_r. split; [reflexivity | apply Nat.le_0_l]. }
    assert (Hemit : (List.length (emit P RULES busy durationMin tz nowUtc c) <= 1)%nat).
    { unfold emit.
      destruct (accepts P RULES busy durationMin tz nowUtc c); simpl; lia. }
    destruct (mkDate_cases (c + step)) as [[_ E] | [_ E]]; rewrite E.
    + destruct (IH (c + step)
                  (starts ++ emit P RULES busy durationMin tz nowUtc c))
        as (l & Hl & Hlen); [lia |].
      exists (emit P RULES busy durationMin tz nowUtc c ++ l).
      rewrite Hl, app_assoc. split; [reflexivity |].
      rewrite length_app. lia.
    + rewrite scan_invalid.
      exists (emit P RULES busy durationMin tz nowUtc c).
      split; [reflexivity | lia].
Qed.

(** With a zero step the cursor stays on a position that passes the loop
    guard and the end test: no amount of fuel ends the loop. *)
Lemma scan_zero_step (busy : list BusyInterval) (endUtc : JSDate) (c : Z) :
  SLOT_INTERVAL_MIN RULES = 0 ->
  in_range c ->
  in_window durationMin endUtc c = true ->
  forall (fuel : nat) (starts : list Z),
    scan P RULES fuel busy durationMin tz nowUtc endUtc (DateOf c) starts = None.
Proof.
  intros Hz Hc Hw. induction fuel as [| fuel IH]; intros starts;
    [reflexivity |].
  rewrite scan_step, Hw. unfold stepMs. rewrite Hz.
  replace (c + 0 * msPerMinute) with c by lia.
  rewrite (mkDate_in_range _ Hc). apply IH.
Qed.

(** The buffer test only asks whether some entry crosses the padded
    bounds. *)
Lemma overlaps_incl (busy busy' : list BusyInterval) (x y : JSDate) :
  incl busy busy' ->
  overlaps RULES busy x y = true -> overlaps RULES busy' x y = true.
Proof.
  unfold overlaps. intros Hincl H.
  apply existsb_exists in H. destruct H as (b & Hb & Hc).
  apply existsb_exists. exists b. split; [now apply Hincl | exact Hc].
Qed.

Lemma accepts_incl (busy busy' : list BusyInterval) (c : Z) :
  incl busy busy' ->
  accepts P RULES busy' durationMin tz nowUtc c = true ->
  accepts P RULES busy durationMin tz nowUtc c = true.
Proof.
  unfold accepts. intros Hincl H.
  apply andb_true_iff in H. destruct H as [H Hh].
  apply andb_true_iff in H. destruct H as [Hn Ho].
  rewrite Hn, Hh. apply negb_true_iff in Ho.
  destruct (overlaps RULES busy (DateOf c) (addMinutes (DateOf c) durationMin))
    eqn:E; [| reflexivity].
  apply (overlaps_incl _ _ _ _ Hincl) in E. congruence.
Qed.

(** A longer busy list leaves the course of the loop unchanged and can
    only remove candidates. *)
Lemma scan_busy_incl (busy busy' : list BusyInterval) (endUtc : JSDate) :
  incl busy busy' ->
  forall (fuel : nat) (cursor : JSDate) (starts starts' r' : list Z),
    incl starts' starts ->
    scan P RULES fuel busy' durationMin tz nowUtc endUtc cursor starts' = Some r' ->
    exists r,
      scan P RULES fuel busy durationMin tz nowUtc endUtc cursor starts = Some r
      /\ incl r' r.
Proof.
  intros Hincl. induction fuel as [| fuel IH];
    intros cursor starts starts' r' Hs H; [discriminate |].
  destruct cursor as [c |].
  2:{ rewrite scan_invalid in H. inversion H; subst.
      exists starts. rewrite scan_invalid. auto. }
  rewrite scan_step in H. rewrite scan_step.
  destruct (in_window durationMin endUtc c).
  2:{ inversion H; subst. eauto. }
  eapply IH; [| exact H].
  unfold emit.
  destruct (accepts P RULES busy' durationMin tz nowUtc c) eqn:E'.
  - rewrite (accepts_incl _ _ _ Hincl E').
    apply incl_app; [apply incl_appl; exact Hs | apply incl_appr, incl_refl].
  - rewrite app_nil_r. apply incl_appl. exact Hs.
Qed.

(** Two busy lists with the same entries, in any order and with any
    repetition, give the same loop. *)
Lemma scan_busy_same (busy busy' : list BusyInterval) (endUtc : JSDate) :
  (forall b, In b busy <-> In b busy') ->
  forall (fuel : nat) (cursor : JSDate) (starts : list Z),
    scan P RULES fuel busy durationMin tz nowUtc endUtc cursor starts
    = scan P RULES fuel busy' durationMin tz nowUtc endUtc cursor starts.
Proof.
  intros Hsame.
  assert (Hacc : forall c,
             accepts P RULES busy durationMin tz nowUtc c
             = accepts P RULES busy' durationMin tz nowUtc c).
  { intros c.
    destruct (accepts P RULES busy' durationMin tz nowUtc c) eqn:E'.
    - apply (accepts_incl busy busy'); [| exact E'].
      intros b Hb. now apply Hsame.
    - destruct (accepts P RULES busy durationMin tz nowUtc c) eqn:E;
        [| reflexivity].
      rewrite (accepts_incl busy' busy c) in E'; [discriminate | | exact E].
      intros b Hb. now apply Hsame. }
  induction fuel as [| fuel IH]; intros cursor starts; [reflexivity |].
  destruct cursor as [c |]; [| reflexivity].
  rewrite !scan_step. unfold emit. rewrite Hacc.
  destruct (in_window durationMin endUtc c); [apply IH | reflexivity].
Qed.

End ScanBounds.

Section MoreAvailability.

Variable P : Platform.
Variable RULES : Rules.

(** X1.  For a positive grid step, a window that was built and a
    provider that answered, the loop ends: if [n] grid steps cover the
    window, [n + 1] loop tests suffice and the call returns at most [n]
    candidates. *)
Theorem availability_returns_within_grid
  (freeBusy : Z -> Z -> Result (list BusyInterval)) (now : Z)
  (date : string) (durationMin : Z) (tz : string)
  (ws we : Z) (busy : list BusyInterval) (n : nat)
  (Hpos : 0 < SLOT_INTERVAL_MIN RULES)
  (Hwindow : workWindow P RULES date tz = inr (ws, we))
  (Hbusy : freeBusy ws we = inr busy)
  (Hn : we - ws <= Z.of_nat n * stepMs RULES) :
  exists starts,
    computeAvailability P RULES (S n) freeBusy now date durationMin tz
      = Some (inr starts)
    /\ (List.length starts <= n)%nat.
Proof.
  assert (Hstep : 0 < stepMs RULES)
    by (unfold stepMs; pose proof msPerMinute_pos; nia).
  destruct (workWindow_ok _ _ _ _ _ _ Hwindow) as (Es & Ee & _ & _).
  destruct (scan_within P RULES durationMin tz (mkDate now) busy we n Hstep
              ws [] Hn) as (l & Hl & Hlen).
  exists l. split; [| exact Hlen].
  unfold computeAvailability. now rewrite Hwindow, Hbusy, Es, Ee, Hl.
Qed.

(** X2.  With [SLOT_INTERVAL_MIN = 0] and a first position that passes
    the loop guard and the end-of-work test, the loop never ends: no
    amount of fuel yields a result. *)
Theorem availability_hangs_on_zero_step
  (freeBusy : Z -> Z -> Result (list BusyInterval)) (now : Z)
  (date : string) (durationMin : Z) (tz : string)
  (ws we : Z) (busy : list BusyInterval)
  (Hzero : SLOT_INTERVAL_MIN RULES = 0)
  (Hwindow : workWindow P RULES date tz = inr (ws, we))
  (Hbusy : freeBusy ws we = inr busy)
  (Hopen : ws < we)
  (Hfits : ws + durationMin * msPerMinute <= we) :
  forall fuel,
    computeAvailability P RULES fuel freeBusy now date durationMin tz = None.
Proof.
  intros fuel.
  destruct (workWindow_ok _ _ _ _ _ _ Hwindow) as (Es & Ee & Rs & _).
  unfold computeAvailability. rewrite Hwindow, Hbusy, Es, Ee.
  rewrite (scan_zero_step P RULES durationMin tz (mkDate now) busy
             (DateOf we) ws Hzero Rs); [reflexivity |].
  unfold in_window, date_gtb. simpl.
  apply andb_true_iff. split; [now apply Z.ltb_lt |].
  destruct (mkDate_cases (ws + durationMin * msPerMinute)) as [[_ E] | [_ E]];
    rewrite E; simpl; [| reflexivity].
  apply negb_true_iff, Z.ltb_ge. lia.
Qed.

(** X3.  When the window is empty, or the first slot would end after
    [window.end] at a time value that a Date can hold, the loop is left
    at its first test and the call returns the empty sequence, whatever
    the busy list, the clock and the later grid positions. *)
Theorem availability_empty_when_first_slot_does_not_fit
  (fuel : nat) (freeBusy : Z -> Z -> Result (list BusyInterval)) (now : Z)
  (date : string) (durationMin : Z) (tz : string)
  (ws we : Z) (busy : list BusyInterval)
  (Hwindow : workWindow P RULES date tz = inr (ws, we))
  (Hbusy : freeBusy ws we = inr busy)
  (Hfirst : we <= ws
            \/ (we < ws + durationMin * msPerMinute
                /\ ws + durationMin * msPerMinute <= MAX_TIME)) :
  computeAvailability P RULES (S fuel) freeBusy now date durationMin tz
    = Some (inr []).
Proof.
  destruct (workWindow_ok _ _ _ _ _ _ Hwindow) as (Es & Ee & Rs & Re).
  unfold computeAvailability. rewrite Hwindow, Hbusy, Es, Ee, scan_step.
  assert (Hw : in_window durationMin (DateOf we) ws = false).
  { unfold in_window, date_gtb. simpl. destruct Hfirst as [H | [H1 H2]].
    - assert ((ws <? we) = false) as -> by (apply Z.ltb_ge; lia).
      reflexivity.
    - rewrite mkDate_in_range by (unfold in_range in *; lia).
      simpl. assert ((we <? ws + durationMin * msPerMinute) = true) as ->
        by (apply Z.ltb_lt; lia).
      apply andb_false_r. }
  now rewrite Hw.
Qed.

(** X4.  Candidates can only disappear when the provider reports more:
    if every entry of one busy list is in another, the call on the
    longer list returns, with the same fuel, only candidates that the
    call on the shorter list returns as well. *)
Theorem availability_shrinks_with_more_busy
  (fuel : nat) (freeBusy freeBusy' : Z -> Z -> Result (list BusyInterval))
  (now : Z) (date : string) (durationMin : Z) (tz : string)
  (ws we : Z) (busy busy' : list BusyInterval) (starts' : list Z)
  (Hwindow : workWindow P RULES date tz = inr (ws, we))
  (Hbusy : freeBusy ws we = inr busy)
  (Hbusy' : freeBusy' ws we = inr busy')
  (Hincl : incl busy busy')
  (Hcall : computeAvailability P RULES fuel freeBusy' now date durationMin tz
           = Some (inr starts')) :
  exists starts,
    computeAvailability P RULES fuel freeBusy now date durationMin tz
      = Some (inr starts)
    /\ incl starts' starts.
Proof.
  destruct (call_scan P RULES _ _ _ _ _ _ _ _ _ _ Hcall Hwindow Hbusy')
    as (_ & _ & Hscan).
  destruct (scan_busy_incl P RULES durationMin tz (mkDate now) busy busy'
              (DateOf we) Hincl fuel (DateOf ws) [] [] starts'
              (incl_refl _) Hscan) as (r & Hr & Hsub).
  destruct (workWindow_ok _ _ _ _ _ _ Hwindow) as (Es & Ee & _ & _).
  exists r. split; [| exact Hsub].
  unfold computeAvailability. now rewrite Hwindow, Hbusy, Es, Ee, Hr.
Qed.

(** X5.  The busy list counts as a set: two answers with the same
    entries, in any order and with any repetition, give the same
    result. *)
Theorem availability_ignores_busy_order
  (fuel : nat) (freeBusy freeBusy' : Z -> Z -> Result (list BusyInterval))
  (now : Z) (date : string) (durationMin : Z) (tz : string)
  (ws we : Z) (busy busy' : list BusyInterval)
  (Hwindow : workWindow P RULES date tz = inr (ws, we))
  (Hbusy : freeBusy ws we = inr busy)
  (Hbusy' : freeBusy' ws we = inr busy')
  (Hsame : forall b, In b busy <-> In b busy') :
  computeAvailability P RULES fuel freeBusy now date durationMin tz
  = computeAvailability P RULES fuel freeBusy' now date durationMin tz.
Proof.
  unfold computeAvailability. rewrite Hwindow, Hbusy, Hbusy'.
  now rewrite (scan_busy_same P RULES durationMin tz (mkDate now) busy busy'
                 _ Hsame).
Qed.

End MoreAvailability.

(** ** The work window in closed form *)

Section WindowForm.

Variable P : Platform.
Variable RULES : Rules.

(** The host zone has no gap at the wall clocks involved: converting a
    wall clock to an instant and back returns it. *)
Hypothesis host_round_trip : forall w, sysWall P (sysInstant P w) = w.

Lemma mkDate_host (w t : Z) :
  mkDate (sysInstant P w) = DateOf t -> sysWall P t = w.
Proof.
  intros H. apply mkDate_valid_inv in H. destruct H as [-> _].
  apply host_round_trip.
Qed.

Lemma setHours_wall (d : JSDate) (h t' : Z) :
  setHours P d h = DateOf t' ->
  exists t, d = DateOf t
    /\ sysWall P t' = Day (sysWall P t) * msPerDay + h * msPerHour
                      + sysWall P t mod msPerHour.
Proof.
  destruct d as [t |]; [| discriminate]. simpl. intros H.
  exists t. split; [reflexivity | now apply mkDate_host].
Qed.

Lemma setMinutes_wall (d : JSDate) (m t' : Z) :
  setMinutes P d m = DateOf t' ->
  exists t, d = DateOf t
    /\ sysWall P t' = Day (sysWall P t) * msPerDay
                      + HourFromTime (sysWall P t) * msPerHour
                      + m * msPerMinute + sysWall P t mod msPerMinute.
Proof.
  destruct d as [t |]; [| discriminate]. simpl. intros H.
  exists t. split; [reflexivity | now apply mkDate_host].
Qed.

Lemma setSeconds_wall (d : JSDate) (sec t' : Z) :
  setSeconds P d sec = DateOf t' ->
  exists t, d = DateOf t
    /\ sysWall P t' = Day (sysWall P t) * msPerDay
                      + HourFromTime (sysWall P t) * msPerHour
                      + MinFromTime (sysWall P t) * msPerMinute
                      + sec * 1000 + sysWall P t mod 1000.
Proof.
  destruct d as [t |]; [| discriminate]. simpl. intros H.
  exists t. split; [reflexivity | now apply mkDate_host].
Qed.

(** Clearing hours, minutes and seconds in turn leaves the day and the
    milliseconds of the wall clock. *)
Lemma cleared_wall (w w1 w2 w3 : Z) :
  w1 = Day w * msPerDay + 0 * msPerHour + w mod msPerHour ->
  w2 = Day w1 * msPerDay + HourFromTime w1 * msPerHour
       + 0 * msPerMinute + w1 mod msPerMinute ->
  w3 = Day w2 * msPerDay + HourFromTime w2 * msPerHour
       + MinFromTime w2 * msPerMinute + 0 * 1000 + w2 mod 1000 ->
  w3 = Day w * msPerDay + w mod 1000.
Proof.
  unfold Day, HourFromTime, MinFromTime, msPerDay, msPerHour, msPerMinute.
  intros -> -> ->.
  Z.div_mod_to_equations. lia.
Qed.

Lemma hour_set_wall (w h : Z) :
  Day (Day w * msPerDay + w mod 1000) * msPerDay + h * msPerHour
  + (Day w * msPerDay + w mod 1000) mod msPerHour
  = Day w * msPerDay + h * msPerHour + w mod 1000.
Proof.
  unfold Day, msPerDay, msPerHour.
  Z.div_mod_to_equations. lia.
Qed.

(** The wall clock of [setHours(dayStartLocal, h)]. *)
Lemma workLocal_wall (date : string) (t h tS : Z) :
  newDate P date = DateOf t ->
  setHours P (setSeconds P (setMinutes P (setHours P (newDate P date) 0) 0) 0) h
    = DateOf tS ->
  sysWall P tS = Day (sysWall P t) * msPerDay + h * msPerHour
                 + sysWall P t mod 1000.
Proof.
  intros Hd H. rewrite Hd in H.
  apply setHours_wall in H. destruct H as (t3 & H3 & ->).
  apply setSeconds_wall in H3. destruct H3 as (t2 & H2 & E3).
  apply setMinutes_wall in H2. destruct H2 as (t1 & H1 & E2).
  apply setHours_wall in H1. destruct H1 as (t0 & H0 & E1).
  inversion H0; subst t0.
  rewrite (cleared_wall _ _ _ _ E1 E2 E3).
  apply hour_set_wall.
Qed.

Lemma zoned_instant (d : JSDate) (tz : string) (x : Z) :
  zonedTimeToUtc P d tz = DateOf x ->
  exists t, d = DateOf t /\ tzInstant P tz (sysWall P t) = Some x.
Proof.
  destruct d as [t |]; [| discriminate]. simpl.
  destruct (tzInstant P tz (sysWall P t)) as [y |] eqn:E; [| discriminate].
  simpl. intros H. apply mkDate_valid_inv in H. destruct H as [-> _].
  exists t. split; [reflexivity | exact E].
Qed.

(** The two wall clocks that the window converts. *)
Lemma workWindow_walls
  (date tz : string) (t ws we : Z) :
  newDate P date = DateOf t ->
  workWindow P RULES date tz = inr (ws, we) ->
  tzInstant P tz (Day (sysWall P t) * msPerDay
                  + WORK_START_HOUR RULES * msPerHour
                  + sysWall P t mod 1000) = Some ws
  /\ tzInstant P tz (Day (sysWall P t) * msPerDay
                     + WORK_END_HOUR RULES * msPerHour
                     + sysWall P t mod 1000) = Some we.
Proof.
  intros Hdate Hwindow.
  destruct (workWindow_ok _ _ _ _ _ _ Hwindow) as (Es & Ee & _ & _).
  apply zoned_instant in Es. destruct Es as (ts & Hs & Is).
  apply zoned_instant in Ee. destruct Ee as (te & He & Ie).
  unfold workStartLocal in Hs. unfold workEndLocal in He.
  rewrite (workLocal_wall date t _ ts Hdate Hs) in Is.
  rewrite (workLocal_wall date t _ te Hdate He) in Ie.
  split; assumption.
Qed.

(** X7.  On a host whose local time round-trips, the window of a date
    that parses to the instant [t] is made of the work hours of the
    host-local calendar day of [t], milliseconds of [t] kept, read as
    wall-clock times in the request zone. *)
Theorem work_window_closed_form
  (date tz : string) (t ws we : Z)
  (Hdate : newDate P date = DateOf t)
  (Hwindow : workWindow P RULES date tz = inr (ws, we)) :
  let w := sysWall P t in
  tzInstant P tz (Day w * msPerDay + WORK_START_HOUR RULES * msPerHour
                  + w mod 1000) = Some ws
  /\ tzInstant P tz (Day w * msPerDay + WORK_END_HOUR RULES * msPerHour
                     + w mod 1000) = Some we.
Proof.
  cbv zeta. exact (workWindow_walls date tz t ws we Hdate Hwindow).
Qed.

End WindowForm.

(** X8.  Let the host keep a fixed offset from UTC and let the date
    parse to midnight UTC of day [n], as a date-only string does.  The
    window is then the work hours of day [n] when the host is at or east
    of UTC, and of day [n - 1] when the host is west of UTC. *)
Theorem work_window_day_follows_host
  (P : Platform) (RULES : Rules) (offsetMin : Z)
  (date tz : string) (n ws we : Z)
  (Hwall : forall t, sysWall P t = t + offsetMin * msPerMinute)
  (Hinstant : forall w, sysInstant P w = w - offsetMin * msPerMinute)
  (Hoffset : -1440 < offsetMin < 1440)
  (Hdate : newDate P date = DateOf (n * msPerDay))
  (Hwindow : workWindow P RULES date tz = inr (ws, we)) :
  let day := if offsetMin <? 0 then n - 1 else n in
  tzInstant P tz (day * msPerDay + WORK_START_HOUR RULES * msPerHour) = Some ws
  /\ tzInstant P tz (day * msPerDay + WORK_END_HOUR RULES * msPerHour) = Some we.
Proof.
  assert (Hrt : forall w, sysWall P (sysInstant P w) = w)
    by (intros w; rewrite Hinstant, Hwall; lia).
  pose proof (workWindow_walls P RULES Hrt date tz _ ws we Hdate Hwindow)
    as H.
  rewrite Hwall in H.
  assert (Hday : Day (n * msPerDay + offsetMin * msPerMinute)
                 = if offsetMin <? 0 then n - 1 else n).
  { unfold Day, msPerDay, msPerMinute.
    destruct (offsetMin <? 0) eqn:E;
      [apply Z.ltb_lt in E | apply Z.ltb_ge in E];
      Z.div_mod_to_equations; lia. }
  assert (Hms : (n * msPerDay + offsetMin * msPerMinute) mod 1000 = 0).
  { unfold msPerDay, msPerMinute. Z.div_mod_to_equations. lia. }
  rewrite Hday, Hms, !Z.add_0_r in H. exact H.
Qed.

(** ** Further properties of [normalizeRange] *)

Section MoreRange.

Variable P : Platform.

(** X9.  Each failure of [normalizeRange] belongs to one branch: the
    presence error to an empty input, the RangeError of [toISOString] to
    two date-shaped inputs (one of which did not convert), and the
    invalid start/end error to the timestamp branch, where at least one
    input lacks the date shape, with an input that [parseISO] rejects. *)
Theorem normalizeRange_failures (start end_ tz : string) (e : JSError) :
  normalizeRange P start end_ tz = inl e ->
  (e = Error_StartEndRequired /\ (start = EmptyString \/ end_ = EmptyString))
  \/ (e = RangeError_InvalidTimeValue
      /\ isDateOnly start = true /\ isDateOnly end_ = true)
  \/ (e = Error_InvalidStartEnd
      /\ isDateOnly start && isDateOnly end_ = false
      /\ (parseISO P start = InvalidDate \/ parseISO P end_ = InvalidDate)).
Proof.
  unfold normalizeRange.
  destruct (falsy start) eqn:Fs.
  { intros H. inversion H. left. split; [reflexivity |].
    left. destruct start; [reflexivity | discriminate]. }
  destruct (falsy end_) eqn:Fe.
  { intros H. inversion H. left. split; [reflexivity |].
    right. destruct end_; [reflexivity | discriminate]. }
  cbn [orb].
  destruct (isDateOnly start && isDateOnly end_) eqn:Hd.
  - apply andb_true_iff in Hd. destruct Hd as [Hs He].
    intros H. right. left. split; [| auto].
    unfold bind in H.
    destruct (zonedTimeToUtc P (newDate P (start ++ "T00:00:00")) tz);
      simpl in H; [| inversion H; reflexivity].
    destruct (zonedTimeToUtc P (newDate P (end_ ++ "T23:59:59.999")) tz);
      simpl in H; [discriminate | inversion H; reflexivity].
  - intros H. right. right.
    destruct (parseISO P start) as [s |] eqn:Ps;
      destruct (parseISO P end_) as [t |] eqn:Pe; simpl in H;
      try discriminate; inversion H; auto.
Qed.

(** X10.  In the timestamp branch the two inputs are treated alike: if
    a call succeeds, the call with the inputs exchanged succeeds with the
    exchanged instants, in any zone. *)
Theorem normalizeRange_exchange (start end_ tz tz' : string) (a b : Z)
  (Hshape : isDateOnly start && isDateOnly end_ = false)
  (Hcall : normalizeRange P start end_ tz = inr (a, b)) :
  normalizeRange P end_ start tz' = inr (b, a).
Proof.
  unfold normalizeRange in *.
  rewrite andb_comm in Hshape. rewrite orb_comm.
  destruct (falsy start || falsy end_); [discriminate |].
  rewrite Hshape. rewrite andb_comm in Hshape. rewrite Hshape in Hcall.
  destruct (parseISO P start) as [s |], (parseISO P end_) as [t |];
    simpl in *; try discriminate.
  inversion Hcall; subst. reflexivity.
Qed.

End MoreRange.

Lemma string_length_list (s : string) :
  String.length s = List.length (list_ascii_of_string s).
Proof.
  induction s as [| a s IH]; simpl; [reflexivity | now rewrite IH].
Qed.

Lemma string_length_append (s t : string) :
  String.length (s ++ t) = (String.length s + String.length t)%nat.
Proof.
  induction s as [| a s IH]; simpl; [reflexivity | now rewrite IH].
Qed.

Lemma isDateOnly_length (s : string) :
  isDateOnly s = true -> String.length s = 10%nat.
Proof.
  unfold isDateOnly. rewrite string_length_list.
  destruct (list_ascii_of_string s) as [| ? [| ? [| ? [| ? [| ? [| ? [| ?
    [| ? [| ? [| ? [| ? l]]]]]]]]]]]; try discriminate.
  reflexivity.
Qed.

(** X11.  The date shape is anchored at both ends: a string that has it
    is ten characters long, and no string obtained by adding characters
    before or after it has the shape, so a date followed by a time, or
    padded with a blank, goes to the timestamp branch. *)
Theorem isDateOnly_anchored (s t : string)
  (Hshape : isDateOnly s = true) (Ht : t <> EmptyString) :
  String.length s = 10%nat
  /\ isDateOnly (s ++ t) = false
  /\ isDateOnly (t ++ s) = false.
Proof.
  pose proof (isDateOnly_length s Hshape) as Hlen.
  assert (Hpos : (0 < String.length t)%nat)
    by (destruct t; [congruence | simpl; lia]).
  split; [exact Hlen |].
  split.
  - destruct (isDateOnly (s ++ t)) eqn:E; [| reflexivity].
    apply isDateOnly_length in E. rewrite string_length_append in E. lia.
  - destruct (isDateOnly (t ++ s)) eqn:E; [| reflexivity].
    apply isDateOnly_length in E. rewrite string_length_append in E. lia.
Qed.

(** ** Properties of the calendar windows *)

Section MoreWindows.

Variable P : Platform.

Hypothesis host_round_trip : forall w, sysWall P (sysInstant P w) = w.

Lemma shiftDate_wall (d : JSDate) (days t' : Z) :
  shiftDate P d days = DateOf t' ->
  exists t, d = DateOf t /\ sysWall P t' = sysWall P t + days * msPerDay.
Proof.
  destruct d as [t |]; [| discriminate]. simpl. intros H.
  exists t. split; [reflexivity | now apply (mkDate_host P host_round_trip)].
Qed.

Lemma startOfDay_wall (d : JSDate) (t' : Z) :
  startOfDay P d = DateOf t' ->
  exists t, d = DateOf t /\ sysWall P t' = Day (sysWall P t) * msPerDay.
Proof.
  destruct d as [t |]; [| discriminate]. simpl. intros H.
  exists t. split; [reflexivity | now apply (mkDate_host P host_round_trip)].
Qed.

Lemma endOfDay_wall (d : JSDate) (t' : Z) :
  endOfDay P d = DateOf t' ->
  exists t, d = DateOf t
    /\ sysWall P t' = Day (sysWall P t) * msPerDay + (msPerDay - 1).
Proof.
  destruct d as [t |]; [| discriminate]. simpl. intros H.
  exists t. split; [reflexivity |].
  rewrite (mkDate_host P host_round_trip _ _ H).
  unfold msPerDay, msPerHour, msPerMinute. lia.
Qed.

Lemma startOfWeek_wall (d : JSDate) (t' : Z) :
  startOfWeek P d 1 = DateOf t' ->
  exists t, d = DateOf t
    /\ sysWall P t'
       = (Day (sysWall P t) - (WeekDay (sysWall P t) + 6) mod 7) * msPerDay.
Proof.
  destruct d as [t |]; [| discriminate]. unfold startOfWeek. intros H.
  exists t. split; [reflexivity |].
  apply startOfDay_wall in H. destruct H as (t1 & H1 & ->).
  apply shiftDate_wall in H1. destruct H1 as (t0 & H0 & ->).
  inversion H0; subst t0. clear H0.
  assert (Hday : 0 <= WeekDay (sysWall P t) < 7)
    by (unfold WeekDay; apply Z.mod_pos_bound; lia).
  remember (WeekDay (sysWall P t)) as day eqn:Eday. clear Eday.
  remember (sysWall P t) as w eqn:Ew. clear Ew.
  unfold Day, msPerDay.
  destruct (day <? 1) eqn:E; [apply Z.ltb_lt in E | apply Z.ltb_ge in E];
    Z.div_mod_to_equations; lia.
Qed.

(** X12.  On a host whose local time round-trips, [nextWeekWindow]
    starts at a host-local Monday midnight that lies strictly after the
    current instant and at most seven days after it, and it ends exactly
    seven wall-clock days later. *)
Theorem nextWeekWindow_is_the_following_week (now timeMin timeMax : Z)
  (Hcall : nextWeekWindow P now = inr (timeMin, timeMax)) :
  let w := sysWall P now in
  WeekDay (sysWall P timeMin) = 1
  /\ sysWall P timeMin mod msPerDay = 0
  /\ w < sysWall P timeMin <= w + 7 * msPerDay
  /\ sysWall P timeMax = sysWall P timeMin + 7 * msPerDay.
Proof.
  unfold nextWeekWindow, bind, addDays in Hcall.
  destruct (shiftDate P (startOfWeek P (mkDate now) 1) 7) as [a |] eqn:Ea;
    [| discriminate].
  cbn [toISOString ok] in Hcall.
  destruct (shiftDate P (DateOf a) 7) as [b |] eqn:Eb; [| discriminate].
  cbn [toISOString ok] in Hcall. inversion Hcall; subst a b. clear Hcall.
  apply shiftDate_wall in Eb. destruct Eb as (a' & Ha' & Wb).
  inversion Ha'; subst a'. clear Ha'.
  apply shiftDate_wall in Ea. destruct Ea as (m & Hm & Wa).
  assert (Hnow : mkDate now = DateOf now).
  { destruct (mkDate_cases now) as [[_ E] | [_ E]]; [exact E |].
    rewrite E in Hm. discriminate. }
  rewrite Hnow in Hm.
  apply startOfWeek_wall in Hm. destruct Hm as (n0 & Hn0 & Wm).
  inversion Hn0; subst n0. clear Hn0.
  cbv zeta. rewrite Wb, Wa, Wm.
  remember (sysWall P now) as w eqn:Ew. clear Ew.
  unfold WeekDay, Day, msPerDay.
  repeat split; Z.div_mod_to_equations; lia.
Qed.

(** X13.  On a host whose local time round-trips, [todayRange] does not
    depend on the host zone: its bounds are the instants at which the
    request zone shows the first and the last millisecond of the current
    day of that zone.  When the zone conversion is exact, the wall clock
    of the current instant lies between the wall clocks of the bounds. *)
Theorem todayRange_is_the_zone_day (now : Z) (tz : string) (timeMin timeMax : Z)
  (Hcall : todayRange P now tz = inr (timeMin, timeMax)) :
  let w := tzWall P tz now in
  tzInstant P tz (Day w * msPerDay) = Some timeMin
  /\ tzInstant P tz (Day w * msPerDay + (msPerDay - 1)) = Some timeMax
  /\ ((forall v x, tzInstant P tz v = Some x -> tzWall P tz x = v) ->
      tzWall P tz timeMin <= w <= tzWall P tz timeMax).
Proof.
  unfold todayRange, bind in Hcall.
  destruct (zonedTimeToUtc P (startOfDay P (utcToZonedTime P (mkDate now) tz)) tz)
    as [a |] eqn:Ea; [| discriminate].
  cbn [toISOString ok] in Hcall.
  destruct (zonedTimeToUtc P (endOfDay P (utcToZonedTime P (mkDate now) tz)) tz)
    as [b |] eqn:Eb; [| discriminate].
  cbn [toISOString ok] in Hcall. inversion Hcall; subst a b. clear Hcall.
  apply zoned_instant in Ea. destruct Ea as (ts & Hs & Is).
  apply zoned_instant in Eb. destruct Eb as (te & He & Ie).
  apply startOfDay_wall in Hs. destruct Hs as (t1 & H1 & Ws).
  apply endOfDay_wall in He. destruct He as (t1' & H1' & We).
  rewrite H1 in H1'. inversion H1'; subst t1'. clear H1'.
  assert (Hnow : mkDate now = DateOf now).
  { destruct (mkDate_cases now) as [[_ E] | [_ E]]; [exact E |].
    rewrite E in H1. discriminate. }
  rewrite Hnow in H1. simpl in H1.
  apply (mkDate_host P host_round_trip) in H1.
  rewrite Ws, H1 in Is. rewrite We, H1 in Ie.
  cbv zeta. split; [exact Is |]. split; [exact Ie |].
  intros Hzone. rewrite (Hzone _ _ Is), (Hzone _ _ Ie).
  unfold Day, msPerDay. Z.div_mod_to_equations. lia.
Qed.

(** X14.  On a host whose local time round-trips, the earlier
    [todayRange] takes the day from the host: its bounds are the instants
    at which the request zone shows the first and the last millisecond
    of the current day of the host zone. *)
Theorem todayRange_hostDay_is_the_host_day
  (now : Z) (tz : string) (timeMin timeMax : Z)
  (Hcall : todayRange_hostDay P now tz = inr (timeMin, timeMax)) :
  let w := sysWall P now in
  tzInstant P tz (Day w * msPerDay) = Some timeMin
  /\ tzInstant P tz (Day w * msPerDay + (msPerDay - 1)) = Some timeMax.
Proof.
  unfold todayRange_hostDay, bind in Hcall.
  destruct (zonedTimeToUtc P (startOfDay P (mkDate now)) tz)
    as [a |] eqn:Ea; [| discriminate].
  cbn [toISOString ok] in Hcall.
  destruct (zonedTimeToUtc P (endOfDay P (mkDate now)) tz)
    as [b |] eqn:Eb; [| discriminate].
  cbn [toISOString ok] in Hcall. inversion Hcall; subst a b. clear Hcall.
  apply zoned_instant in Ea. destruct Ea as (ts & Hs & Is).
  apply zoned_instant in Eb. destruct Eb as (te & He & Ie).
  apply startOfDay_wall in Hs. destruct Hs as (t1 & H1 & Ws).
  apply endOfDay_wall in He. destruct He as (t1' & H1' & We).
  rewrite H1 in H1'. inversion H1'; subst t1'. clear H1'.
  assert (Hnow : mkDate now = DateOf now).
  { destruct (mkDate_cases now) as [[_ E] | [_ E]]; [exact E |].
    rewrite E in H1. discriminate. }
  rewrite Hnow in H1. inversion H1; subst t1.
  rewrite Ws in Is. rewrite We in Ie. cbv zeta. auto.
Qed.

End MoreWindows.

(** ** Properties of the authentication middlewares *)

Module AuthFacts.

Import Auth.

Lemma falsy_false_not_empty (k : string) :
  falsy k = false -> String.eqb k EmptyString = false.
Proof. destruct k; [discriminate | reflexivity]. Qed.

Lemma gate_shut (secret : option string) (key : string) :
  secret = None \/ secret = Some EmptyString ->
  falsy key || negb (same key secret) = true.
Proof.
  intros [-> | ->]; simpl.
  - apply orb_true_r.
  - destruct (falsy key) eqn:F; [reflexivity |].
    now rewrite (falsy_false_not_empty _ F).
Qed.

(** X15.  The three token tests fail closed: when the secret is unset
    or empty, every request is answered with 401, whatever it carries. *)
Theorem unset_secret_rejects_everything
  (secret : option string)
  (Hsecret : secret = None \/ secret = Some EmptyString) :
  (forall xApiKey authorization,
      requireApiKey secret xApiKey authorization = Unauthorized)
  /\ (forall queryToken header,
        requireActionToken secret queryToken header = Unauthorized)
  /\ (forall queryToken, summaryToken secret queryToken = Unauthorized).
Proof.
  repeat split; intros;
    unfold requireApiKey, requireActionToken, summaryToken;
    now rewrite (gate_shut secret _ Hsecret).
Qed.

(** X16.  A non-empty [X-API-Key] header decides alone: the request
    passes exactly when the header equals [API_KEY], and the
    [Authorization] header is not looked at, so a valid bearer token does
    not rescue a wrong [X-API-Key]. *)
Theorem x_api_key_takes_precedence
  (API_KEY : option string) (key : string) (authorization : option string)
  (Hkey : key <> EmptyString) :
  (requireApiKey API_KEY (Some key) authorization = Next
   <-> API_KEY = Some key)
  /\ requireApiKey API_KEY (Some key) authorization
     = requireApiKey API_KEY (Some key) None.
Proof.
  assert (F : falsy key = false) by (destruct key; [congruence | reflexivity]).
  unfold requireApiKey, orElse. rewrite F. simpl. rewrite F. simpl.
  split; [| reflexivity].
  destruct API_KEY as [k |]; simpl.
  - destruct (String.eqb key k) eqn:E; simpl.
    + apply String.eqb_eq in E. subst k. tauto.
    + apply String.eqb_neq in E. split; [discriminate |].
      intros H. inversion H. congruence.
  - split; discriminate.
Qed.

Lemma drop_spaces_all (ws l : list ascii) :
  Forall (fun a => is_space a = true) ws ->
  drop_spaces (ws ++ l) = drop_spaces l.
Proof.
  induction 1 as [| a ws Ha _ IH]; simpl; [reflexivity |].
  now rewrite Ha.
Qed.

Lemma drop_spaces_head (l : list ascii) (a : ascii) (l' : list ascii) :
  drop_spaces l = a :: l' -> is_space a = false.
Proof.
  induction l as [| b l IH]; simpl; [discriminate |].
  destruct (is_space b) eqn:E; [exact IH |].
  intros H. inversion H; subst. exact E.
Qed.

Lemma drop_spaces_fixed (l : list ascii) :
  drop_spaces l = l
  <-> match l with a :: _ => is_space a = false | [] => True end.
Proof.
  destruct l as [| a l]; simpl; [tauto |].
  destruct (is_space a) eqn:E.
  - split; [| discriminate]. intros H.
    assert (Hlen : (List.length (drop_spaces l) <= List.length l)%nat).
    { clear. induction l as [| b l IH]; simpl; [lia |].
      destruct (is_space b); simpl; lia. }
    rewrite H in Hlen. simpl in Hlen. lia.
  - tauto.
Qed.

(** The pattern [/^Bearer\s+/i] on a scheme word, blanks and a rest. *)
Lemma strip_bearer_scheme (scheme ws rest : list ascii) (sp : ascii) :
  Forall2 (fun a lower => letter_ci a lower = true) scheme
          (list_ascii_of_string "bearer") ->
  is_space sp = true ->
  Forall (fun a => is_space a = true) ws ->
  strip_bearer (string_of_list_ascii (scheme ++ sp :: ws ++ rest))
  = string_of_list_ascii (drop_spaces rest).
Proof.
  intros Hs Hsp Hws. unfold strip_bearer.
  rewrite list_ascii_of_string_of_list_ascii.
  simpl in Hs.
  repeat match goal with
         | H : Forall2 _ _ (_ :: _) |- _ => inversion H; subst; clear H
         | H : Forall2 _ _ [] |- _ => inversion H; subst; clear H
         end.
  cbn [app].
  repeat match goal with
         | H : letter_ci _ _ = true |- _ => rewrite H; clear H
         end.
  rewrite Hsp. cbn [andb].
  now rewrite drop_spaces_all.
Qed.

(** X17.  Without an [X-API-Key] header, an [Authorization] header made
    of the word Bearer in any letter case, one or more blanks and the
    configured key passes exactly when the key is non-empty and does not
    begin with a blank: the pattern takes every blank after the word, so
    a key that begins with one cannot be presented this way. *)
Theorem bearer_token_accepted
  (API_KEY : string) (xApiKey : option string)
  (scheme ws : list ascii) (sp : ascii)
  (Hx : xApiKey = None \/ xApiKey = Some EmptyString)
  (Hscheme : Forall2 (fun a lower => letter_ci a lower = true) scheme
               (list_ascii_of_string "bearer"))
  (Hsp : is_space sp = true)
  (Hws : Forall (fun a => is_space a = true) ws) :
  requireApiKey (Some API_KEY) xApiKey
    (Some (string_of_list_ascii
             (scheme ++ sp :: ws ++ list_ascii_of_string API_KEY)))
  = Next
  <-> exists a rest, API_KEY = String a rest /\ is_space a = false.
Proof.
  unfold requireApiKey.
  assert (Hauth : orElse
            (Some (string_of_list_ascii
                     (scheme ++ sp :: ws ++ list_ascii_of_string API_KEY)))
            EmptyString
          = string_of_list_ascii
              (scheme ++ sp :: ws ++ list_ascii_of_string API_KEY)).
  { inversion Hscheme; subst. reflexivity. }
  rewrite Hauth, (strip_bearer_scheme _ _ _ _ Hscheme Hsp Hws).
  assert (Hkey : forall b, orElse xApiKey b = b)
    by (intros b; destruct Hx as [-> | ->]; reflexivity).
  rewrite Hkey. simpl same.
  destruct API_KEY as [| a rest].
  - simpl. split; [discriminate | intros (a & r & H & _); discriminate].
  - cbn [list_ascii_of_string drop_spaces].
    destruct (is_space a) eqn:Ea.
    + split; [| intros (a' & r' & H & Hn); inversion H; subst; congruence].
      intros H. exfalso.
      destruct (falsy (string_of_list_ascii
                         (drop_spaces (list_ascii_of_string rest))));
        [discriminate |].
      destruct (String.eqb
                  (string_of_list_ascii
                     (drop_spaces (list_ascii_of_string rest)))
                  (String a rest)) eqn:E; [| discriminate].
      apply String.eqb_eq in E.
      apply (f_equal list_ascii_of_string) in E.
      rewrite list_ascii_of_string_of_list_ascii in E. simpl in E.
      assert (Hlen : forall l, (List.length (drop_spaces l) <= List.length l)%nat).
      { induction l as [| b l IH]; simpl; [lia |].
        destruct (is_space b); simpl; lia. }
      specialize (Hlen (list_ascii_of_string rest)).
      rewrite E in Hlen. simpl in Hlen. lia.
    + cbn [string_of_list_ascii]. rewrite string_of_list_ascii_of_string.
      simpl falsy. rewrite String.eqb_refl. simpl.
      split; [eauto | reflexivity].
Qed.

Lemma drop_spaces_suffix (l : list ascii) :
  exists p, l = p ++ drop_spaces l.
Proof.
  induction l as [| a l [p Hp]]; simpl; [exists []; reflexivity |].
  destruct (is_space a).
  - exists (a :: p). simpl. now rewrite <- Hp.
  - exists []. reflexivity.
Qed.

Lemma orElse_present (h : string) : orElse (Some h) EmptyString = h.
Proof. destruct h; reflexivity. Qed.

(** X18.  Without a [token] query parameter, an [X-Action-Token] header
    made of the configured token with blanks before and after it passes
    exactly when the token is non-empty and neither begins nor ends with
    a blank: the header is trimmed before the comparison. *)
Theorem action_token_header_is_trimmed
  (ACTION_TOKEN : string) (queryToken : option string)
  (before after : list ascii)
  (Hq : queryToken = None \/ queryToken = Some EmptyString)
  (Hbefore : Forall (fun a => is_space a = true) before)
  (Hafter : Forall (fun a => is_space a = true) after) :
  requireActionToken (Some ACTION_TOKEN) queryToken
    (Some (string_of_list_ascii
             (before ++ list_ascii_of_string ACTION_TOKEN ++ after)))
  = Next
  <-> match list_ascii_of_string ACTION_TOKEN with
      | a :: _ => is_space a = false
      | [] => False
      end
      /\ match rev (list_ascii_of_string ACTION_TOKEN) with
         | z :: _ => is_space z = false
         | [] => False
         end.
Proof.
  unfold requireActionToken, trim.
  rewrite orElse_present, list_ascii_of_string_of_list_ascii.
  assert (Hkey : forall b, orElse queryToken b = b)
    by (intros b; destruct Hq as [-> | ->]; reflexivity).
  rewrite Hkey, (drop_spaces_all _ _ Hbefore).
  remember (list_ascii_of_string ACTION_TOKEN) as k eqn:Ek.
  assert (HT : ACTION_TOKEN = string_of_list_ascii k)
    by (subst k; now rewrite string_of_list_ascii_of_string).
  set (r := rev (drop_spaces (rev (drop_spaces (k ++ after))))).
  simpl same.
  split.
  - intros H.
    destruct (falsy (string_of_list_ascii r)) eqn:F; [discriminate |].
    destruct (String.eqb (string_of_list_ascii r) ACTION_TOKEN) eqn:E;
      [| discriminate].
    apply String.eqb_eq in E. rewrite HT in E.
    apply (f_equal list_ascii_of_string) in E.
    rewrite !list_ascii_of_string_of_list_ascii in E.
    assert (Hne : k <> []).
    { intros ->. rewrite E in F. discriminate. }
    split.
    + destruct k as [| a k']; [congruence |].
      destruct (drop_spaces_suffix (rev (drop_spaces ((a :: k') ++ after))))
        as (p & Hp).
      apply (f_equal (@rev ascii)) in Hp.
      rewrite rev_involutive, rev_app_distr in Hp.
      fold r in Hp. rewrite E in Hp.
      change ((a :: k') ++ rev p) with (a :: (k' ++ rev p)) in Hp.
      now apply drop_spaces_head in Hp.
    + assert (Hr : rev k = drop_spaces (rev (drop_spaces (k ++ after)))).
      { apply (f_equal (@rev ascii)) in E. rewrite <- E.
        unfold r. apply rev_involutive. }
      destruct (rev k) as [| z k'] eqn:Erev.
      * apply (f_equal (@rev ascii)) in Erev.
        rewrite rev_involutive in Erev. simpl in Erev. congruence.
      * symmetry in Hr. now apply drop_spaces_head in Hr.
  - intros [Hhead Hlast].
    assert (Hr : r = k).
    { unfold r. destruct k as [| a k']; [contradiction |].
      cbn [app drop_spaces]. rewrite Hhead.
      change (a :: k' ++ after) with ((a :: k') ++ after).
      rewrite rev_app_distr.
      rewrite drop_spaces_all
        by (apply Forall_forall; intros x Hx; apply in_rev in Hx;
            revert x Hx; now apply Forall_forall).
      destruct (rev (a :: k')) as [| z k''] eqn:Erev; [contradiction |].
      cbn [drop_spaces]. rewrite Hlast, <- Erev. apply rev_involutive. }
    rewrite Hr, <- HT.
    assert (F : falsy ACTION_TOKEN = false).
    { rewrite HT. destruct k; [contradiction | reflexivity]. }
    now rewrite F, String.eqb_refl.
Qed.

(** X19.  A non-empty [token] query parameter decides alone and is
    compared as it is: the request passes exactly when it equals
    [ACTION_TOKEN], and the [X-Action-Token] header is not looked at. *)
Theorem query_token_takes_precedence
  (ACTION_TOKEN : option string) (token : string) (header : option string)
  (Htoken : token <> EmptyString) :
  (requireActionToken ACTION_TOKEN (Some token) header = Next
   <-> ACTION_TOKEN = Some token)
  /\ requireActionToken ACTION_TOKEN (Some token) header
     = requireActionToken ACTION_TOKEN (Some token) None.
Proof.
  assert (F : falsy token = false)
    by (destruct token; [congruence | reflexivity]).
  unfold requireActionToken, orElse. rewrite F. simpl. rewrite F. simpl.
  split; [| reflexivity].
  destruct ACTION_TOKEN as [k |]; simpl.
  - destruct (String.eqb token k) eqn:E; simpl.
    + apply String.eqb_eq in E. subst k. tauto.
    + apply String.eqb_neq in E. split; [discriminate |].
      intros H. inversion H. congruence.
  - split; discriminate.
Qed.

End AuthFacts.

(** ** The further properties on the example requests *)

Lemma hostWest_round_trip : forall w, sysWall hostWest (sysInstant hostWest w) = w.
Proof.
  intros w. simpl. unfold hostWall, hostInstant. lia.
Defined.

Lemma hostUTC_round_trip : forall w, sysWall hostUTC (sysInstant hostUTC w) = w.
Proof.
  intros w. simpl. unfold hostWall, hostInstant. lia.
Defined.

Lemma availability_returns_within_grid_witness :
  exists starts,
    computeAvailability hostUTC defaultRules 17 (fixedBusy busyList)
      sevenAM monday 30 zone = Some (inr starts)
    /\ (List.length starts <= 16)%nat.
Proof.
  apply (availability_returns_within_grid hostUTC defaultRules
           (fixedBusy busyList) sevenAM monday 30 zone
           windowStart windowEnd busyList 16);
    [reflexivity | reflexivity | reflexivity | decide_num].
Defined.

Lemma availability_hangs_on_zero_step_witness :
  computeAvailability hostUTC zeroStepRules 1000 noBusy sevenAM monday 30 zone
  = None.
Proof.
  apply (availability_hangs_on_zero_step hostUTC zeroStepRules
           noBusy sevenAM monday 30 zone windowStart windowEnd []);
    [reflexivity | reflexivity | reflexivity | reflexivity | decide_num].
Defined.

(** A ten-hour meeting does not fit the eight-hour window. *)
Lemma availability_empty_when_first_slot_does_not_fit_witness :
  computeAvailability hostUTC defaultRules 1 noBusy sevenAM monday 600 zone
  = Some (inr []).
Proof.
  apply (availability_empty_when_first_slot_does_not_fit hostUTC defaultRules
           0 noBusy sevenAM monday 600 zone windowStart windowEnd []);
    [reflexivity | reflexivity |].
  right. split; decide_num.
Defined.

Lemma availability_shrinks_with_more_busy_witness :
  exists starts,
    computeAvailability hostUTC defaultRules 20 noBusy sevenAM monday 30 zone
      = Some (inr starts)
    /\ incl slots starts.
Proof.
  apply (availability_shrinks_with_more_busy hostUTC defaultRules 20
           noBusy (fixedBusy busyList) sevenAM monday 30 zone
           windowStart windowEnd [] busyList slots);
    [reflexivity | reflexivity | reflexivity | | reflexivity].
  intros b Hb. contradiction.
Defined.

Lemma availability_ignores_busy_order_witness :
  computeAvailability hostUTC defaultRules 20 (fixedBusy busyList)
    sevenAM monday 30 zone
  = computeAvailability hostUTC defaultRules 20 (fixedBusy busyListSorted)
      sevenAM monday 30 zone.
Proof.
  apply (availability_ignores_busy_order hostUTC defaultRules 20
           (fixedBusy busyList) (fixedBusy busyListSorted)
           sevenAM monday 30 zone windowStart windowEnd
           busyList busyListSorted);
    [reflexivity | reflexivity | reflexivity |].
  intros b. unfold busyList, busyListSorted. simpl. tauto.
Defined.

(** On the host five hours west the window of Saturday 2025-08-09 is
    made of the work hours of Friday 2025-08-08, day 20308. *)
Lemma work_window_closed_form_witness :
  tzInstant hostWest zone (20308 * msPerDay + 9 * msPerHour + 0)
    = Some 1754661600000
  /\ tzInstant hostWest zone (20308 * msPerDay + 17 * msPerHour + 0)
     = Some 1754690400000.
Proof.
  apply (work_window_closed_form hostWest defaultRules hostWest_round_trip
           saturday zone 1754697600000 1754661600000 1754690400000);
    reflexivity.
Defined.

Lemma work_window_day_follows_host_witness :
  tzInstant hostWest zone ((20309 - 1) * msPerDay + 9 * msPerHour)
    = Some 1754661600000
  /\ tzInstant hostWest zone ((20309 - 1) * msPerDay + 17 * msPerHour)
     = Some 1754690400000.
Proof.
  apply (work_window_day_follows_host hostWest defaultRules (-300)
           saturday zone 20309 1754661600000 1754690400000).
  - intros t. reflexivity.
  - intros w. reflexivity.
  - lia.
  - reflexivity.
  - reflexivity.
Defined.

(** A date-shaped start with month 13 fails in the date branch, with the
    RangeError and not with the invalid start/end error. *)
Lemma normalizeRange_failures_witness :
  (RangeError_InvalidTimeValue = Error_StartEndRequired
   /\ ("2025-13-45"%string = EmptyString \/ "2025-08-11"%string = EmptyString))
  \/ (RangeError_InvalidTimeValue = RangeError_InvalidTimeValue
      /\ isDateOnly "2025-13-45" = true /\ isDateOnly "2025-08-11" = true)
  \/ (RangeError_InvalidTimeValue = Error_InvalidStartEnd
      /\ isDateOnly "2025-13-45" && isDateOnly "2025-08-11" = false
      /\ (parseISO hostUTC "2025-13-45" = InvalidDate
          \/ parseISO hostUTC "2025-08-11" = InvalidDate)).
Proof.
  apply (normalizeRange_failures hostUTC "2025-13-45" "2025-08-11" zone).
  reflexivity.
Defined.

Lemma normalizeRange_exchange_witness :
  normalizeRange hostUTC "2025-08-12T10:00:00Z" "2025-08-11T10:00:00Z" "UTC"
  = inr (1754992800000, 1754906400000).
Proof.
  apply (normalizeRange_exchange hostUTC
           "2025-08-11T10:00:00Z" "2025-08-12T10:00:00Z" zone "UTC");
    reflexivity.
Defined.

Lemma isDateOnly_anchored_witness :
  String.length "2025-08-11" = 10%nat
  /\ isDateOnly ("2025-08-11" ++ "T10:00:00Z") = false
  /\ isDateOnly ("T10:00:00Z" ++ "2025-08-11") = false.
Proof.
  apply (isDateOnly_anchored "2025-08-11" "T10:00:00Z");
    [reflexivity | discriminate].
Defined.

(** Thursday noon UTC is 07:00 on the host five hours west; the window
    starts on Monday 2025-08-11 at host midnight. *)
Lemma nextWeekWindow_is_the_following_week_witness :
  WeekDay (sysWall hostWest 1754888400000) = 1
  /\ sysWall hostWest 1754888400000 mod msPerDay = 0
  /\ sysWall hostWest thursdayNoon < sysWall hostWest 1754888400000
     <= sysWall hostWest thursdayNoon + 7 * msPerDay
  /\ sysWall hostWest 1755493200000
     = sysWall hostWest 1754888400000 + 7 * msPerDay.
Proof.
  apply (nextWeekWindow_is_the_following_week hostWest hostWest_round_trip
           thursdayNoon 1754888400000 1755493200000).
  reflexivity.
Defined.

Lemma todayRange_is_the_zone_day_witness :
  tzInstant hostUTC zone (Day (tzWall hostUTC zone fridayEarly) * msPerDay)
    = Some 1754542800000
  /\ tzWall hostUTC zone 1754542800000 <= tzWall hostUTC zone fridayEarly
     <= tzWall hostUTC zone 1754629199999.
Proof.
  destruct (todayRange_is_the_zone_day hostUTC hostUTC_round_trip
              fridayEarly zone 1754542800000 1754629199999 eq_refl)
    as (Hmin & _ & Hwall).
  split; [exact Hmin |].
  apply Hwall. intros v x H.
  change (Some (v - -300 * msPerMinute) = Some x) in H.
  injection H as <-.
  change (v - -300 * msPerMinute + -300 * msPerMinute = v). lia.
Defined.

(** The earlier version, on a host in UTC at the same instant, returns
    the host's Friday and not the zone's Thursday. *)
Lemma todayRange_hostDay_is_the_host_day_witness :
  tzInstant hostUTC zone (Day (sysWall hostUTC fridayEarly) * msPerDay)
    = Some 1754629200000
  /\ tzInstant hostUTC zone
       (Day (sysWall hostUTC fridayEarly) * msPerDay + (msPerDay - 1))
     = Some 1754715599999.
Proof.
  apply (todayRange_hostDay_is_the_host_day hostUTC hostUTC_round_trip
           fridayEarly zone 1754629200000 1754715599999).
  reflexivity.
Defined.

Lemma unset_secret_rejects_everything_witness :
  Auth.requireApiKey None (Some "anything"%string) (Some "Bearer anything"%string)
  = Auth.Unauthorized.
Proof.
  apply (AuthFacts.unset_secret_rejects_everything None (or_introl eq_refl)).
Defined.

Lemma x_api_key_takes_precedence_witness :
  Auth.requireApiKey (Some "s3cret"%string) (Some "wrong"%string)
    (Some "Bearer s3cret"%string)
  = Auth.requireApiKey (Some "s3cret"%string) (Some "wrong"%string) None.
Proof.
  apply (AuthFacts.x_api_key_takes_precedence (Some "s3cret"%string)
           "wrong"%string (Some "Bearer s3cret"%string)).
  discriminate.
Defined.

Lemma bearer_token_accepted_witness :
  Auth.requireApiKey (Some "s3cret"%string) None
    (Some "bEARER   s3cret"%string)
  = Auth.Next.
Proof.
  apply (AuthFacts.bearer_token_accepted "s3cret"%string None
           (list_ascii_of_string "bEARER") [" "; " "]%char " "%char).
  - left. reflexivity.
  - repeat constructor.
  - reflexivity.
  - repeat constructor.
  - exists "s"%char, "3cret"%string. split; reflexivity.
Defined.

Lemma action_token_header_is_trimmed_witness :
  Auth.requireActionToken (Some "t0ken"%string) None (Some "  t0ken "%string)
  = Auth.Next.
Proof.
  apply (AuthFacts.action_token_header_is_trimmed "t0ken"%string None
           [" "; " "]%char [" "]%char).
  - left. reflexivity.
  - repeat constructor.
  - repeat constructor.
  - split; reflexivity.
Defined.

Lemma query_token_takes_precedence_witness :
  Auth.requireActionToken (Some "t0ken"%string) (Some " t0ken"%string)
    (Some "t0ken"%string)
  = Auth.requireActionToken (Some "t0ken"%string) (Some " t0ken"%string) None.
Proof.
  apply (AuthFacts.query_token_takes_precedence (Some "t0ken"%string)
           " t0ken"%string (Some "t0ken"%string)).
  discriminate.
Defined.

(** X20.  Every returned start passed the tests that precede the push:
    it lies before [window.end], its weekday in the request zone is a
    work day, its hour there is within the work hours, and it is not
    earlier than the current instant plus the notice (these two being
    time values that a Date can hold). *)
Theorem returned_starts_passed_every_test
  (P : Platform) (RULES : Rules)
  (fuel : nat) (freeBusy : Z -> Z -> Result (list BusyInterval)) (now : Z)
  (date : string) (durationMin : Z) (tz : string)
  (starts : list Z) (ws we s : Z)
  (Hcall : computeAvailability P RULES fuel freeBusy now date durationMin tz
           = Some (inr starts))
  (Hwindow : workWindow P RULES date tz = inr (ws, we))
  (Hs : In s starts) :
  s < we
  /\ includes (WORK_DAYS RULES) (zonedDay P s tz) = true
  /\ WORK_START_HOUR RULES <= zonedHours P s tz < WORK_END_HOUR RULES
  /\ (in_range now ->
      in_range (now + MIN_NOTICE_MIN RULES * msPerMinute) ->
      now + MIN_NOTICE_MIN RULES * msPerMinute <= s).
Proof.
  destruct (computeAvailability_ok _ _ _ _ _ _ _ _ _ Hcall)
    as (ws' & we' & busy & Hw & Hb & _).
  rewrite Hwindow in Hw. inversion Hw; subst ws' we'. clear Hw.
  destruct (starts_emitted P RULES _ _ _ _ _ _ _ _ _ _ Hcall Hwindow Hb s Hs)
    as (k & _ & Hin & Hacc).
  unfold in_window in Hin. apply andb_true_iff in Hin.
  destruct Hin as [Hlt _]. simpl in Hlt. apply Z.ltb_lt in Hlt.
  unfold accepts in Hacc. apply andb_true_iff in Hacc.
  destruct Hacc as [Hacc Hh].
  apply andb_true_iff in Hacc. destruct Hacc as [Hn _].
  unfold withinWorkHours in Hh.
  destruct (includes (WORK_DAYS RULES) (zonedDay P s tz)); [| discriminate].
  simpl in Hh. apply andb_true_iff in Hh. destruct Hh as [Ha Hb'].
  apply Z.leb_le in Ha. apply Z.ltb_lt in Hb'.
  repeat split; try assumption.
  intros Rnow Rnotice. unfold notice_ok, date_gtb in Hn.
  rewrite (mkDate_in_range _ Rnow) in Hn. simpl in Hn.
  rewrite (mkDate_in_range _ Rnotice) in Hn. simpl in Hn.
  apply negb_true_iff, Z.ltb_ge in Hn. exact Hn.
Qed.

Lemma returned_starts_passed_every_test_witness :
  1754928000000 < windowEnd
  /\ includes (WORK_DAYS defaultRules) (zonedDay hostUTC 1754928000000 zone)
     = true
  /\ WORK_START_HOUR defaultRules <= zonedHours hostUTC 1754928000000 zone
     < WORK_END_HOUR defaultRules
  /\ sevenAM + MIN_NOTICE_MIN defaultRules * msPerMinute <= 1754928000000.
Proof.
  destruct (returned_starts_passed_every_test hostUTC defaultRules 20
              (fixedBusy busyList) sevenAM monday 30 zone
              slots windowStart windowEnd 1754928000000
              eq_refl eq_refl ltac:(in_list)) as (H1 & H2 & H3 & H4).
  split; [exact H1 |]. split; [exact H2 |]. split; [exact H3 |].
  apply H4; range.
Defined.
